(** * OpenRouter service: chat dispatch and the streaming response decoder

    A shallow embedding of [web/src/services/ai/openrouterService.ts]:
    [sendChatRequest], [generateSuggestions] and [sendStreamingChatRequest]
    with its line-draining closure [processLines].

    Strings are sequences of UTF-16 code units, as in the language; the
    asynchronous functions are computations over an event trace that may
    throw; the platform services the module calls ([JSON.parse], the
    number-to-string coercion, [fetch]) are parameters. *)

From Stdlib Require Import Ascii String.
From Stdlib Require Import List NArith ZArith QArith Bool Lia.
Import ListNotations.
Close Scope Q_scope.

Set Warnings "-register-all".

(* ================================================================== *)
(** * Strings of the language *)
(* ================================================================== *)

Module Js.

(** A string is a sequence of UTF-16 code units. *)
Definition jsstring : Type := list N.

(** Source literals are written in UTF-8 in this file and decoded here to
    code units (a code point above U+FFFF becomes a surrogate pair). *)
Fixpoint utf16_of_bytes (bs : list N) : jsstring :=
  match bs with
  | [] => []
  | b :: rest =>
    if (b <? 128)%N then b :: utf16_of_bytes rest
    else if (b <? 224)%N then
      match rest with
      | b2 :: rest2 =>
        (N.lor (N.shiftl (N.land b 31) 6) (N.land b2 63)) :: utf16_of_bytes rest2
      | [] => [65533%N]
      end
    else if (b <? 240)%N then
      match rest with
      | b2 :: b3 :: rest3 =>
        (N.lor (N.shiftl (N.land b 15) 12)
               (N.lor (N.shiftl (N.land b2 63) 6) (N.land b3 63)))
          :: utf16_of_bytes rest3
      | _ => [65533%N]
      end
    else
      match rest with
      | b2 :: b3 :: b4 :: rest4 =>
        let cp := N.lor (N.shiftl (N.land b 7) 18)
                  (N.lor (N.shiftl (N.land b2 63) 12)
                  (N.lor (N.shiftl (N.land b3 63) 6) (N.land b4 63))) in
        let v := (cp - 65536)%N in
        (55296 + N.shiftr v 10)%N :: (56320 + N.land v 1023)%N
          :: utf16_of_bytes rest4
      | _ => [65533%N]
      end
  end.

Definition lit (s : string) : jsstring :=
  utf16_of_bytes (map N_of_ascii (list_ascii_of_string s)).
Arguments lit : simpl never.

Definition NL : N := 10.

Fixpoint eqb (a b : jsstring) : bool :=
  match a, b with
  | [], [] => true
  | x :: a', y :: b' => (x =? y)%N && eqb a' b'
  | _, _ => false
  end.

Definition isEmpty (s : jsstring) : bool :=
  match s with [] => true | _ => false end.

(** [s.indexOf(c)] for a one-unit needle; [None] stands for [-1]. *)
Fixpoint indexOf (c : N) (s : jsstring) : option nat :=
  match s with
  | [] => None
  | x :: s' =>
    if (x =? c)%N then Some 0
    else match indexOf c s' with
         | Some i => Some (S i)
         | None => None
         end
  end.

(** [s.slice(0, n)] and [s.slice(n)] for [0 <= n]. *)
Definition slice_to (n : nat) (s : jsstring) : jsstring := firstn n s.
Definition slice_from (n : nat) (s : jsstring) : jsstring := skipn n s.

(** [s.startsWith(p)]. *)
Fixpoint startsWith (p s : jsstring) : bool :=
  match p, s with
  | [], _ => true
  | x :: p', y :: s' => (x =? y)%N && startsWith p' s'
  | _ :: _, [] => false
  end.

(** [s.includes(p)]. *)
Fixpoint includes (p s : jsstring) : bool :=
  startsWith p s
  || match s with
     | [] => false
     | _ :: s' => includes p s'
     end.

(** The code units that [trim] strips: WhiteSpace and LineTerminator of
    the language definition. *)
Definition is_whitespace (c : N) : bool :=
  ((c =? 9) || (c =? 10) || (c =? 11) || (c =? 12) || (c =? 13)
   || (c =? 32) || (c =? 160) || (c =? 5760)
   || ((8192 <=? c) && (c <=? 8202))
   || (c =? 8232) || (c =? 8233) || (c =? 8239) || (c =? 8287)
   || (c =? 12288) || (c =? 65279))%N.

Fixpoint trimStart (s : jsstring) : jsstring :=
  match s with
  | [] => []
  | c :: s' => if is_whitespace c then trimStart s' else s
  end.

Definition trimEnd (s : jsstring) : jsstring := rev (trimStart (rev s)).

Definition trim (s : jsstring) : jsstring := trimEnd (trimStart s).

(** [s.split('\n')]: the pieces between the newlines, in order; the
    empty string splits into one empty piece. *)
Fixpoint split (c : N) (s : jsstring) : list jsstring :=
  match s with
  | [] => [[]]
  | x :: s' =>
    if (x =? c)%N then [] :: split c s'
    else match split c s' with
         | piece :: pieces => (x :: piece) :: pieces
         | [] => [[x]]
         end
  end.

(** [pieces.join(sep)]. *)
Fixpoint join (sep : jsstring) (pieces : list jsstring) : jsstring :=
  match pieces with
  | [] => []
  | [p] => p
  | p :: ps => p ++ sep ++ join sep ps
  end.

(** Decimal rendering of a non-negative integer, as the template literal
    renders [response.status]. *)
Fixpoint digits_fuel (fuel : nat) (n : N) (acc : jsstring) : jsstring :=
  match fuel with
  | O => acc
  | S fuel' =>
    let acc' := (48 + n mod 10)%N :: acc in
    if (n <? 10)%N then acc' else digits_fuel fuel' (n / 10)%N acc'
  end.

Definition of_N (n : N) : jsstring := digits_fuel (S (N.to_nat (N.log2 n))) n [].

End Js.

Import Js.

(* ================================================================== *)
(** * Values, exceptions and the platform *)
(* ================================================================== *)

(** A JSON number is kept as the decimal its text denotes,
    [mantissa * 10 ^ exponent]. *)
Record number := { mantissa : Z; exponent : Z }.

(** The values [JSON.parse] produces, and [undefined]. An object lists
    its own properties in source order; on a repeated key the last
    binding is the property's value. *)
Inductive value :=
| VUndefined
| VNull
| VBool (b : bool)
| VNumber (n : number)
| VString (s : jsstring)
| VArray (items : list value)
| VObject (fields : list (jsstring * value)).

Inductive exn :=
| Error (message : jsstring)      (* [new Error(message)] *)
| TypeError                       (* raised by the language itself *)
| SyntaxError                     (* raised by [JSON.parse] *)
| PlatformError (reason : jsstring). (* rejection of [fetch] or of a body read *)

Inductive result (A : Type) :=
| Ok (a : A)
| Throw (e : exn).
Arguments Ok {A} a.
Arguments Throw {A} e.

(** Services of the platform that the module calls and does not define. *)
Class Platform := {
  JSON_parse : jsstring -> option value;     (* [None]: the text is not JSON *)
  Number_toString : number -> jsstring
}.

(** A number is truthy unless it is zero as a double: the decimal is not
    zero and does not round to zero (it exceeds [2 ^ -1075] in
    magnitude). *)
Definition number_truthy (n : number) : bool :=
  negb (mantissa n =? 0)%Z
  && ((0 <=? exponent n)%Z
      || (10 ^ (- exponent n) <? Z.abs (mantissa n) * 2 ^ 1075)%Z).

Definition ToBoolean (v : value) : bool :=
  match v with
  | VUndefined | VNull => false
  | VBool b => b
  | VNumber n => number_truthy n
  | VString s => negb (isEmpty s)
  | VArray _ | VObject _ => true
  end.

Definition nullish (v : value) : bool :=
  match v with
  | VUndefined | VNull => true
  | _ => false
  end.

Fixpoint lookup (k : jsstring) (fields : list (jsstring * value)) : option value :=
  match fields with
  | [] => None
  | (k', v) :: rest =>
    match lookup k rest with
    | Some v' => Some v'
    | None => if Js.eqb k k' then Some v else None
    end
  end.

(** [v.name], for a [name] that no built-in prototype defines (the module
    reads [choices], [delta], [content], [message] and [error] only). *)
Definition get (v : value) (name : jsstring) : result value :=
  match v with
  | VUndefined | VNull => Throw TypeError
  | VObject fields =>
    Ok (match lookup name fields with Some x => x | None => VUndefined end)
  | _ => Ok VUndefined
  end.

(** [v?.name]. *)
Definition opt_get (v : value) (name : jsstring) : result value :=
  if nullish v then Ok VUndefined else get v name.

(** [v[0]]. *)
Definition get0 (v : value) : result value :=
  match v with
  | VUndefined | VNull => Throw TypeError
  | VArray items => Ok (hd VUndefined items)
  | VString s => Ok (match s with [] => VUndefined | c :: _ => VString [c] end)
  | VObject fields =>
    Ok (match lookup (lit "0") fields with Some x => x | None => VUndefined end)
  | VBool _ | VNumber _ => Ok VUndefined
  end.

Section Coercion.
Context {P : Platform}.

(** The string a value becomes in a template literal or under [+=] on a
    string; [None] is a [TypeError] (an object whose own [toString]
    property hides the inherited method). *)
Fixpoint ToString (v : value) : option jsstring :=
  match v with
  | VUndefined => Some (lit "undefined")
  | VNull => Some (lit "null")
  | VBool true => Some (lit "true")
  | VBool false => Some (lit "false")
  | VNumber n => Some (Number_toString n)
  | VString s => Some s
  | VArray items =>
    (fix join_items (l : list value) : option jsstring :=
       match l with
       | [] => Some []
       | x :: l' =>
         match (if nullish x then Some [] else ToString x), join_items l' with
         | Some sx, Some sl =>
           Some (match l' with [] => sx | _ :: _ => sx ++ lit "," ++ sl end)
         | _, _ => None
         end
       end) items
  | VObject fields =>
    match lookup (lit "toString") fields with
    | Some _ => None
    | None => Some (lit "[object Object]")
    end
  end.

End Coercion.

(* ================================================================== *)
(** * Requests, responses and observable events *)
(* ================================================================== *)

Inductive Role := user | assistant | system.

Record Message := { role : Role; content : jsstring }.

(** The argument of [fetch]. [req_stream] is the [stream] member of the
    JSON body, absent in the non-streaming request. *)
Record Request := {
  req_url : jsstring;
  req_method : jsstring;
  req_headers : list (jsstring * jsstring);
  req_model : jsstring;
  req_messages : list Message;
  req_temperature : Q;
  req_stream : option bool
}.

(** What one [reader.read()] settles to before the source is exhausted;
    a chunk is given as the text the streaming text decoder returns for
    it. *)
Inductive ReadResult :=
| Chunk (text : jsstring)
| ReadError (e : exn).

(** A response: its status line and its body, [None] for a null body,
    otherwise the reads that precede the end of the source. *)
Record Response := {
  status : N;
  statusText : jsstring;
  body : option (list ReadResult)
}.

(** [response.ok]. *)
Definition ok (r : Response) : bool :=
  ((200 <=? status r) && (status r <=? 299))%N.

Inductive event :=
| Fetch (req : Request)
| OnChunk (delta : value)
| Cancel
| ConsoleError (label : jsstring) (e : exn)
| ConsoleDebug (label : jsstring) (line : jsstring).

Definition trace := list event.

(** The arguments [onChunk] has been called with, oldest first. *)
Fixpoint deltas (tr : trace) : list value :=
  match tr with
  | [] => []
  | OnChunk v :: tr' => v :: deltas tr'
  | _ :: tr' => deltas tr'
  end.

(** The requests issued, oldest first. *)
Fixpoint fetches (tr : trace) : list Request :=
  match tr with
  | [] => []
  | Fetch r :: tr' => r :: fetches tr'
  | _ :: tr' => fetches tr'
  end.

(** The caller's callback: from the arguments of its earlier invocations
    and the present one, whether it returns ([None]) or throws. *)
Definition Callback := list value -> value -> option exn.

(** The network: what [fetch] settles to for a request. *)
Definition Network := Request -> result Response.

(* ================================================================== *)
(** * Computations: a trace of events and a result or an exception *)
(* ================================================================== *)

Definition M (A : Type) : Type := trace -> trace * result A.

Definition ret {A} (a : A) : M A := fun tr => (tr, Ok a).

Definition throw {A} (e : exn) : M A := fun tr => (tr, Throw e).

Definition bind {A B} (m : M A) (k : A -> M B) : M B :=
  fun tr =>
    match m tr with
    | (tr', Ok a) => k a tr'
    | (tr', Throw e) => (tr', Throw e)
    end.

Definition emit (e : event) : M unit := fun tr => (tr ++ [e], Ok tt).

Definition lift {A} (r : result A) : M A := fun tr => (tr, r).

(** [try { m } catch (e) { handler e }]. *)
Definition try_catch {A} (m : M A) (handler : exn -> M A) : M A :=
  fun tr =>
    match m tr with
    | (tr', Ok a) => (tr', Ok a)
    | (tr', Throw e) => handler e tr'
    end.

(** [try { m } finally { fin }]. *)
Definition try_finally {A} (m : M A) (fin : M unit) : M A :=
  fun tr =>
    match m tr with
    | (tr', r) =>
      match fin tr' with
      | (tr'', Ok _) => (tr'', r)
      | (tr'', Throw e) => (tr'', Throw e)
      end
    end.

Declare Scope js_scope.
Delimit Scope js_scope with js.
Notation "x <- m ;; k" := (bind m (fun x => k))
  (at level 61, m at next level, right associativity) : js_scope.
Notation "m ;; k" := (bind m (fun _ => k))
  (at level 61, right associativity) : js_scope.
Open Scope js_scope.

(* ================================================================== *)
(** * Configuration *)
(* ================================================================== *)

(** [encodeURIComponent]: the UTF-8 bytes of the text, percent-encoded
    except for the unreserved characters; [None] is the [URIError] on a
    lone surrogate. *)
Definition hex_digit (n : N) : N :=
  if (n <? 10)%N then (48 + n)%N else (55 + n)%N.

Definition percent (byte : N) : jsstring :=
  [37%N; hex_digit (byte / 16)%N; hex_digit (byte mod 16)%N].

Definition uri_unreserved (c : N) : bool :=
  (((65 <=? c) && (c <=? 90)) || ((97 <=? c) && (c <=? 122))
   || ((48 <=? c) && (c <=? 57))
   || (c =? 45) || (c =? 95) || (c =? 46) || (c =? 33) || (c =? 126)
   || (c =? 42) || (c =? 39) || (c =? 40) || (c =? 41))%N.

Definition utf8_of_code_point (cp : N) : list N :=
  if (cp <? 128)%N then [cp]
  else if (cp <? 2048)%N then
    [(192 + cp / 64)%N; (128 + cp mod 64)%N]
  else if (cp <? 65536)%N then
    [(224 + cp / 4096)%N; (128 + (cp / 64) mod 64)%N; (128 + cp mod 64)%N]
  else
    [(240 + cp / 262144)%N; (128 + (cp / 4096) mod 64)%N;
     (128 + (cp / 64) mod 64)%N; (128 + cp mod 64)%N].

Fixpoint encodeURIComponent (s : jsstring) : option jsstring :=
  match s with
  | [] => Some []
  | c :: s' =>
    if uri_unreserved c then option_map (cons c) (encodeURIComponent s')
    else if ((c <? 55296) || (57343 <? c))%N then
      option_map (app (flat_map percent (utf8_of_code_point c)))
                 (encodeURIComponent s')
    else if (c <? 56320)%N then
      match s' with
      | d :: s'' =>
        if ((56320 <=? d) && (d <=? 57343))%N then
          option_map
            (app (flat_map percent
                    (utf8_of_code_point
                       (65536 + (c - 55296) * 1024 + (d - 56320))%N)))
            (encodeURIComponent s'')
        else None
      | [] => None
      end
    else None
  end.

(** [import.meta.env]: the two variables the module reads. *)
Record Env := {
  VITE_OPENROUTER_API_KEY : option jsstring;
  VITE_SITE_URL : option jsstring
}.

(** [variable || fallback] on an environment variable. *)
Definition or_else (variable : option jsstring) (fallback : jsstring) : jsstring :=
  match variable with
  | Some s => if isEmpty s then fallback else s
  | None => fallback
  end.

Definition API_URL : jsstring := lit "https://openrouter.ai/api/v1/chat/completions".
Definition API_KEY (env : Env) : jsstring := or_else (VITE_OPENROUTER_API_KEY env) [].
Definition SITE_URL (env : Env) : jsstring :=
  or_else (VITE_SITE_URL env) (lit "https://conceptmap.app").
Definition SITE_NAME : jsstring := lit "光场思维地图".

Definition encodedSiteName : jsstring :=
  match encodeURIComponent SITE_NAME with
  | Some s => s
  | None => []
  end.

(* ================================================================== *)
(** * The service *)
(* ================================================================== *)

(** State of the stream decoder: the two accumulators local to one
    streaming call. *)
Record Decoder := { buffer : jsstring; fullText : jsstring }.

Section Service.
Context {P : Platform}.
Variable env : Env.
Variable net : Network.

Definition fetch (req : Request) : M Response :=
  emit (Fetch req) ;; lift (net req).

Definition console_error (label : jsstring) (e : exn) : M unit :=
  emit (ConsoleError label e).

Definition console_debug (label line : jsstring) : M unit :=
  emit (ConsoleDebug label line).

(** The text of a body read to its end, or the failure of a read. *)
Fixpoint body_text (reads : list ReadResult) : result jsstring :=
  match reads with
  | [] => Ok []
  | Chunk text :: rest =>
    match body_text rest with
    | Ok t => Ok (text ++ t)
    | Throw e => Throw e
    end
  | ReadError e :: _ => Throw e
  end.

Definition JSON_parse_or_throw (text : jsstring) : M value :=
  match JSON_parse text with
  | Some v => ret v
  | None => throw SyntaxError
  end.

(** [response.json()]. *)
Definition response_json (r : Response) : M value :=
  text <- lift (body_text (match body r with Some reads => reads | None => [] end)) ;;
  JSON_parse_or_throw text.

(** The interpolation of a value in a template literal. *)
Definition interpolate (v : value) : M jsstring :=
  match ToString v with
  | Some s => ret s
  | None => throw TypeError
  end.

(** [a || b]. *)
Definition or_value (a b : value) : value := if ToBoolean a then a else b.

Definition msg_no_key : jsstring := lit "未配置 OpenRouter API 密钥".
Definition msg_failed : jsstring := lit "API 请求失败: ".
Definition msg_unreadable : jsstring := lit "响应体不可读".

(** [errorData.error?.message || response.statusText], interpolated
    after the failure prefix. *)
Definition api_error_message (errorData : value) (response : Response) : M jsstring :=
  error <- lift (get errorData (lit "error")) ;;
  message <- lift (opt_get error (lit "message")) ;;
  detail <- interpolate (or_value message (VString (statusText response))) ;;
  ret (msg_failed ++ detail).

Definition default_chat_model : jsstring := lit "openai/gpt-4o".
Definition default_streaming_model : jsstring := lit "google/gemini-2.0-flash-lite-001".
Definition default_temperature : Q := Qmake 7 10.

(** A parameter with a default value: [None] is an omitted argument. *)
Definition param {A} (arg : option A) (default : A) : A :=
  match arg with
  | Some a => a
  | None => default
  end.

(** The request of [sendChatRequest]: its headers and its JSON body. *)
Definition chat_request (messages : list Message)
    (model : option jsstring) (temperature : option Q) : Request :=
  {| req_url := API_URL;
     req_method := lit "POST";
     req_headers :=
       [(lit "Authorization", lit "Bearer " ++ API_KEY env);
        (lit "HTTP-Referer", SITE_URL env);
        (lit "X-Title", encodedSiteName);
        (lit "Content-Type", lit "application/json")];
     req_model := param model default_chat_model;
     req_messages := messages;
     req_temperature := param temperature default_temperature;
     req_stream := None |}.

(** The request of [sendStreamingChatRequest]: no title header, and
    [stream: true] in the body. *)
Definition streaming_request (messages : list Message)
    (model : option jsstring) (temperature : option Q) : Request :=
  {| req_url := API_URL;
     req_method := lit "POST";
     req_headers :=
       [(lit "Authorization", lit "Bearer " ++ API_KEY env);
        (lit "HTTP-Referer", SITE_URL env);
        (lit "Content-Type", lit "application/json")];
     req_model := param model default_streaming_model;
     req_messages := messages;
     req_temperature := param temperature default_temperature;
     req_stream := Some true |}.

Definition chat_log_label : jsstring := lit "OpenRouter API 请求错误:".
Definition suggestions_log_label : jsstring := lit "生成建议错误:".
Definition streaming_log_label : jsstring := lit "OpenRouter 流式 API 请求错误:".

Definition sendChatRequest (messages : list Message)
    (model : option jsstring) (temperature : option Q) : M value :=
  try_catch
    ((if isEmpty (API_KEY env) then throw (Error msg_no_key) else ret tt) ;;
     response <- fetch (chat_request messages model temperature) ;;
     (if negb (ok response) then
        errorData <- response_json response ;;
        message <- api_error_message errorData response ;;
        throw (Error message)
      else ret tt) ;;
     data <- response_json response ;;
     choices <- lift (get data (lit "choices")) ;;
     first <- lift (get0 choices) ;;
     content <- (if nullish first then ret VUndefined
                 else message <- lift (get first (lit "message")) ;;
                      lift (get message (lit "content"))) ;;
     ret (or_value content (VString [])))
    (fun error =>
       console_error chat_log_label error ;;
       throw error).

Definition suggestion_prompt (nodeContent : jsstring) : jsstring :=
  lit "
  我正在构建一个概念地图，其中有以下内容的节点:
  " ++ [34%N] ++ nodeContent ++ [34%N] ++ lit "
  
  请提供5个相关概念或想法，这些概念可以与此节点相连接。简洁回答，每行一个概念，不需要额外解释。
  ".

Definition suggestion_messages (nodeContent : jsstring) : list Message :=
  [ {| role := system;
       content := lit "你是一个帮助用户构建知识地图的助手，擅长关联概念和提供洞见。请保持回答简洁、有启发性。" |};
    {| role := user; content := suggestion_prompt nodeContent |} ].

Definition placeholder : jsstring := lit "无法生成建议，请稍后再试".

(** [response.split('\n')]: a method of strings only; on any other
    value the call is a [TypeError]. *)
Definition split_lines (response : value) : M (list jsstring) :=
  match response with
  | VString s => ret (split NL s)
  | _ => throw TypeError
  end.

Definition generateSuggestions (nodeContent : jsstring) : M (list jsstring) :=
  try_catch
    (response <- sendChatRequest (suggestion_messages nodeContent) None None ;;
     lines <- split_lines response ;;
     ret (firstn 5 (filter (fun line => (0 <? length line)%nat) (map trim lines))))
    (fun error =>
       console_error suggestions_log_label error ;;
       ret [placeholder]).

(** ** The stream decoder *)

Definition data_prefix : jsstring := lit "data: ".
Definition DONE : jsstring := lit "[DONE]".
Definition debug_label : jsstring := lit "无法解析流式响应行:".

Section Streaming.
Variable onChunk : Callback.

Definition call_onChunk (v : value) : M unit :=
  fun tr =>
    (tr ++ [OnChunk v],
     match onChunk (deltas tr) v with
     | None => Ok tt
     | Some e => Throw e
     end).

(** [parsed.choices[0]?.delta?.content]. *)
Definition delta_content (parsed : value) : result value :=
  match get parsed (lit "choices") with
  | Throw e => Throw e
  | Ok choices =>
    match get0 choices with
    | Throw e => Throw e
    | Ok first =>
      match opt_get first (lit "delta") with
      | Throw e => Throw e
      | Ok delta => opt_get delta (lit "content")
      end
    end
  end.

(** The [try] block of [processLines] and its [catch], for one payload. *)
Definition process_data (line data : jsstring) (st : Decoder) : M Decoder :=
  try_catch
    (parsed <- JSON_parse_or_throw data ;;
     content <- lift (delta_content parsed) ;;
     if ToBoolean content then
       call_onChunk content ;;
       text <- interpolate content ;;
       ret {| buffer := buffer st; fullText := fullText st ++ text |}
     else ret st)
    (fun e =>
       console_debug debug_label line ;;
       ret st).

(** The [while] loop of [processLines]. Every iteration removes the
    first line from the buffer, so [length (buffer st)] iterations and the
    final test are all the loop can run: [processLines] gives it that
    much, and [processLines_unfold] below is the loop without the
    counter. *)
Fixpoint processLines_loop (fuel : nat) (st : Decoder) : M Decoder :=
  match fuel with
  | O => ret st
  | S fuel' =>
    match indexOf NL (buffer st) with
    | None => ret st
    | Some lineEnd =>
      let line := trim (slice_to lineEnd (buffer st)) in
      let st := {| buffer := slice_from (lineEnd + 1) (buffer st);
                   fullText := fullText st |} in
      if isEmpty line || negb (startsWith data_prefix line) then
        processLines_loop fuel' st
      else
        let data := slice_from 6 line in
        if Js.eqb data DONE then ret st
        else
          st' <- process_data line data st ;;
          processLines_loop fuel' st'
    end
  end.

Definition processLines (st : Decoder) : M Decoder :=
  processLines_loop (S (length (buffer st))) st.

(** The read loop: [reads] are the results of [reader.read()] before the
    one that reports the end of the source. *)
Fixpoint read_loop (reads : list ReadResult) (st : Decoder) : M Decoder :=
  match reads with
  | [] => ret st
  | ReadError e :: _ => throw e
  | Chunk text :: rest =>
    st' <- processLines {| buffer := buffer st ++ text; fullText := fullText st |} ;;
    read_loop rest st'
  end.

(** The statement after the read loop: what is left in the buffer. *)
Definition flush (st : Decoder) : M Decoder :=
  if negb (isEmpty (trim (buffer st))) then
    processLines {| buffer := buffer st ++ [NL]; fullText := fullText st |}
  else ret st.

(** The body of the inner [try]: the read loop, then the flush. *)
Definition drain (reads : list ReadResult) : M Decoder :=
  st <- read_loop reads {| buffer := []; fullText := [] |} ;;
  flush st.

Definition sendStreamingChatRequest (messages : list Message)
    (model : option jsstring) (temperature : option Q) : M jsstring :=
  try_catch
    ((if isEmpty (API_KEY env) then throw (Error msg_no_key) else ret tt) ;;
     response <- fetch (streaming_request messages model temperature) ;;
     (if negb (ok response) then
        try_catch
          (errorData <- response_json response ;;
           message <- api_error_message errorData response ;;
           throw (Error message))
          (fun e =>
             throw (Error (msg_failed ++ of_N (status response) ++ lit " "
                           ++ statusText response)))
      else ret tt) ;;
     match body response with
     | None => throw (Error msg_unreadable)
     | Some reads =>
       st <- try_finally (drain reads) (emit Cancel) ;;
       ret (fullText st)
     end)
    (fun error =>
       console_error streaming_log_label error ;;
       throw error).

End Streaming.
End Service.

(* ================================================================== *)
(** * A reference platform *)
(* ================================================================== *)

(** [JSON.parse] after the JSON grammar, and the rendering of numbers, so
    that the service can be run on concrete responses. *)
Module Reference.

Definition json_ws (c : N) : bool :=
  ((c =? 32) || (c =? 9) || (c =? 10) || (c =? 13))%N.

Fixpoint skip_ws (s : jsstring) : jsstring :=
  match s with
  | [] => []
  | c :: s' => if json_ws c then skip_ws s' else s
  end.

Definition is_digit (c : N) : bool := ((48 <=? c) && (c <=? 57))%N.

Definition hex_value (c : N) : option N :=
  if is_digit c then Some (c - 48)%N
  else if ((65 <=? c) && (c <=? 70))%N then Some (c - 55)%N
  else if ((97 <=? c) && (c <=? 102))%N then Some (c - 87)%N
  else None.

Definition hex4 (a b c d : N) : option N :=
  match hex_value a, hex_value b, hex_value c, hex_value d with
  | Some x, Some y, Some z, Some w => Some (((x * 16 + y) * 16 + z) * 16 + w)%N
  | _, _, _, _ => None
  end.

Definition simple_escape (c : N) : option N :=
  if (c =? 34)%N then Some 34%N
  else if (c =? 92)%N then Some 92%N
  else if (c =? 47)%N then Some 47%N
  else if (c =? 98)%N then Some 8%N
  else if (c =? 102)%N then Some 12%N
  else if (c =? 110)%N then Some 10%N
  else if (c =? 114)%N then Some 13%N
  else if (c =? 116)%N then Some 9%N
  else None.

(** The characters of a string after its opening quote, and what follows
    the closing quote. *)
Fixpoint string_body (s : jsstring) : option (jsstring * jsstring) :=
  match s with
  | [] => None
  | c :: rest =>
    if (c =? 34)%N then Some ([], rest)
    else if (c =? 92)%N then
      match rest with
      | [] => None
      | e :: rest1 =>
        if (e =? 117)%N then
          match rest1 with
          | h1 :: h2 :: h3 :: h4 :: rest2 =>
            match hex4 h1 h2 h3 h4, string_body rest2 with
            | Some u, Some (t, r) => Some (u :: t, r)
            | _, _ => None
            end
          | _ => None
          end
        else
          match simple_escape e, string_body rest1 with
          | Some u, Some (t, r) => Some (u :: t, r)
          | _, _ => None
          end
      end
    else if (c <? 32)%N then None
    else
      match string_body rest with
      | Some (t, r) => Some (c :: t, r)
      | None => None
      end
  end.

Fixpoint take_digits (s : jsstring) : list N * jsstring :=
  match s with
  | [] => ([], [])
  | c :: s' =>
    if is_digit c then
      let (ds, r) := take_digits s' in (c :: ds, r)
    else ([], s)
  end.

Definition digits_value (ds : list N) : Z :=
  fold_left (fun acc d => (acc * 10 + Z.of_N (d - 48))%Z) ds 0%Z.

(** An optional exponent part: [e] or [E], an optional sign, digits. *)
Definition exponent_part (s : jsstring) : option (Z * jsstring) :=
  match s with
  | c :: s1 =>
    if ((c =? 101) || (c =? 69))%N then
      let (negative, s2) :=
        match s1 with
        | sg :: s2 =>
          if (sg =? 45)%N then (true, s2)
          else if (sg =? 43)%N then (false, s2)
          else (false, s1)
        | [] => (false, s1)
        end in
      match take_digits s2 with
      | ([], _) => None
      | (ds, r) =>
        Some ((if negative then - digits_value ds else digits_value ds)%Z, r)
      end
    else Some (0%Z, s)
  | [] => Some (0%Z, s)
  end.

(** An optional fraction part: a point and at least one digit. *)
Definition fraction_part (s : jsstring) : option (list N * jsstring) :=
  match s with
  | c :: s1 =>
    if (c =? 46)%N then
      match take_digits s1 with
      | ([], _) => None
      | (ds, r) => Some (ds, r)
      end
    else Some ([], s)
  | [] => Some ([], s)
  end.

Definition number_literal (s : jsstring) : option (number * jsstring) :=
  let (negative, s1) :=
    match s with
    | c :: s1 => if (c =? 45)%N then (true, s1) else (false, s)
    | [] => (false, s)
    end in
  match take_digits s1 with
  | ([], _) => None
  | (d :: ds, s2) =>
    if (d =? 48)%N && negb (isEmpty ds) then None
    else
      match fraction_part s2 with
      | None => None
      | Some (fs, s3) =>
        match exponent_part s3 with
        | None => None
        | Some (e, s4) =>
          let m := digits_value ((d :: ds) ++ fs) in
          Some ({| mantissa := if negative then (- m)%Z else m;
                   exponent := (e - Z.of_nat (length fs))%Z |}, s4)
        end
      end
  end.

Definition keyword (word : jsstring) (v : value) (s : jsstring)
  : option (value * jsstring) :=
  if startsWith word s then Some (v, skipn (length word) s) else None.

Fixpoint parse_value (fuel : nat) (s : jsstring) : option (value * jsstring) :=
  match fuel with
  | O => None
  | S fuel' =>
    match skip_ws s with
    | [] => None
    | c :: rest =>
      if (c =? 34)%N then
        match string_body rest with
        | Some (t, r) => Some (VString t, r)
        | None => None
        end
      else if (c =? 91)%N then
        match skip_ws rest with
        | d :: r =>
          if (d =? 93)%N then Some (VArray [], r)
          else match parse_items fuel' rest with
               | Some (vs, r') => Some (VArray vs, r')
               | None => None
               end
        | [] => None
        end
      else if (c =? 123)%N then
        match skip_ws rest with
        | d :: r =>
          if (d =? 125)%N then Some (VObject [], r)
          else match parse_members fuel' rest with
               | Some (fs, r') => Some (VObject fs, r')
               | None => None
               end
        | [] => None
        end
      else if (c =? 116)%N then keyword (lit "true") (VBool true) (c :: rest)
      else if (c =? 102)%N then keyword (lit "false") (VBool false) (c :: rest)
      else if (c =? 110)%N then keyword (lit "null") VNull (c :: rest)
      else
        match number_literal (c :: rest) with
        | Some (n, r) => Some (VNumber n, r)
        | None => None
        end
    end
  end
with parse_items (fuel : nat) (s : jsstring) : option (list value * jsstring) :=
  match fuel with
  | O => None
  | S fuel' =>
    match parse_value fuel' s with
    | None => None
    | Some (v, r) =>
      match skip_ws r with
      | c :: r' =>
        if (c =? 44)%N then
          match parse_items fuel' r' with
          | Some (vs, r'') => Some (v :: vs, r'')
          | None => None
          end
        else if (c =? 93)%N then Some ([v], r')
        else None
      | [] => None
      end
    end
  end
with parse_members (fuel : nat) (s : jsstring)
  : option (list (jsstring * value) * jsstring) :=
  match fuel with
  | O => None
  | S fuel' =>
    match skip_ws s with
    | q :: s1 =>
      if (q =? 34)%N then
        match string_body s1 with
        | None => None
        | Some (k, s2) =>
          match skip_ws s2 with
          | colon :: s3 =>
            if (colon =? 58)%N then
              match parse_value fuel' s3 with
              | None => None
              | Some (v, r) =>
                match skip_ws r with
                | c :: r' =>
                  if (c =? 44)%N then
                    match parse_members fuel' r' with
                    | Some (fs, r'') => Some ((k, v) :: fs, r'')
                    | None => None
                    end
                  else if (c =? 125)%N then Some ([(k, v)], r')
                  else None
                | [] => None
                end
              end
            else None
          | [] => None
          end
        end
      else None
    | [] => None
    end
  end.

Definition parse (text : jsstring) : option value :=
  match parse_value (2 * length text + 2) text with
  | Some (v, r) => if isEmpty (skip_ws r) then Some v else None
  | None => None
  end.

(** Rendering of a number: the decimal's digits laid out as the language
    lays out a double (exact for decimals of at most 15 significant digits
    within the range of the normal doubles). *)
Fixpoint strip_zeros (rev_digits : jsstring) : jsstring :=
  match rev_digits with
  | [] => []
  | d :: ds => if (d =? 48)%N then strip_zeros ds else rev_digits
  end.

Definition zeros (n : nat) : jsstring := repeat 48%N n.

Definition render (n : number) : jsstring :=
  if (mantissa n =? 0)%Z then lit "0"
  else
    let all := of_N (Z.to_N (Z.abs (mantissa n))) in
    let ds := rev (strip_zeros (rev all)) in
    let k := Z.of_nat (length ds) in
    let pt := (Z.of_nat (length all) + exponent n)%Z in
    let sign := if (mantissa n <? 0)%Z then lit "-" else [] in
    sign ++
    (if ((k <=? pt) && (pt <=? 21))%Z then ds ++ zeros (Z.to_nat (pt - k))
     else if ((0 <? pt) && (pt <=? 21))%Z then
       firstn (Z.to_nat pt) ds ++ lit "." ++ skipn (Z.to_nat pt) ds
     else if ((-6 <? pt) && (pt <=? 0))%Z then
       lit "0." ++ zeros (Z.to_nat (- pt)) ++ ds
     else
       let e := (pt - 1)%Z in
       let exp := (if (e <? 0)%Z then lit "e-" else lit "e+")
                  ++ of_N (Z.to_N (Z.abs e)) in
       match ds with
       | [d] => [d] ++ exp
       | d :: more => [d] ++ lit "." ++ more ++ exp
       | [] => exp
       end).

#[export] Instance platform : Platform :=
  {| JSON_parse := parse; Number_toString := render |}.

End Reference.

(** Concrete payloads are written with an apostrophe where the text has
    a double quote. *)
Definition quoted (s : string) : jsstring :=
  map (fun c => if (c =? 39)%N then 34%N else c) (lit s).

(** The test [line.length > 0] of [generateSuggestions]. *)
Definition nonblank (line : jsstring) : bool := (0 <? length line)%nat.



(** A parsed frame that carries no delta: reading
    [choices[0]?.delta?.content] fails or gives [undefined]. *)
Definition lacks_delta (parsed : value) : Prop :=
  (exists e, delta_content parsed = Throw e) \/ delta_content parsed = Ok VUndefined.

(** A parsed frame that lacks a member of the expected shape
    [{choices: [{delta: {content: ...}}]}]. *)
Inductive missing_member : value -> Prop :=
| missing_choices fields :
    lookup (lit "choices") fields = None ->
    missing_member (VObject fields)
| missing_first_choice fields :
    lookup (lit "choices") fields = Some (VArray []) ->
    missing_member (VObject fields)
| missing_delta fields first others :
    lookup (lit "choices") fields = Some (VArray (VObject first :: others)) ->
    lookup (lit "delta") first = None ->
    missing_member (VObject fields)
| missing_content fields first others delta :
    lookup (lit "choices") fields = Some (VArray (VObject first :: others)) ->
    lookup (lit "delta") first = Some (VObject delta) ->
    lookup (lit "content") delta = None ->
    missing_member (VObject fields).

(** A payload that is not JSON or whose JSON carries no delta. *)
Definition malformed `{Platform} (data : jsstring) : Prop :=
  match JSON_parse data with
  | None => True
  | Some parsed => lacks_delta parsed
  end.

(** The complete lines of a text: its pieces between newlines, without
    the piece that follows the last newline. *)
Definition complete_lines (text : jsstring) : list jsstring :=
  removelast (split NL text).

(** A line that [processLines] takes for the sentinel frame, and a text
    one of whose complete lines is such a line. *)
Definition is_sentinel (line : jsstring) : bool :=
  Js.eqb (trim line) (data_prefix ++ DONE).

Definition has_sentinel (text : jsstring) : bool :=
  existsb is_sentinel (complete_lines text).

(** A text of ISO-8859-1 code units only, as a header value must be. *)
Definition latin1 (s : jsstring) : bool := forallb (fun c => (c <=? 255)%N) s.

(** [data.choices[0]?.message.content], the expression [sendChatRequest]
    returns when it is truthy. *)
Definition message_content (data : value) : result value :=
  match get data (lit "choices") with
  | Throw e => Throw e
  | Ok choices =>
    match get0 choices with
    | Throw e => Throw e
    | Ok first =>
      if nullish first then Ok VUndefined
      else match get first (lit "message") with
           | Throw e => Throw e
           | Ok message => get message (lit "content")
           end
    end
  end.

(** ** Concrete inputs *)

Module Fixtures.

Definition with_key : Env :=
  {| VITE_OPENROUTER_API_KEY := Some (lit "sk-test"); VITE_SITE_URL := None |}.

Definition without_key : Env :=
  {| VITE_OPENROUTER_API_KEY := None; VITE_SITE_URL := None |}.

(** A network that answers every request with the same response. *)
Definition serve (r : Response) : Network := fun _ => Ok r.

(** A network that must not be reached. *)
Definition unreachable : Network :=
  fun _ => Throw (PlatformError (lit "network reached")).

Definition streamed (chunks : list jsstring) : Response :=
  {| status := 200; statusText := lit "OK"; body := Some (map Chunk chunks) |}.

Definition answered (status : N) (statusText text : jsstring) : Response :=
  {| status := status; statusText := statusText; body := Some [Chunk text] |}.

(** A callback that always returns, and one that always throws. *)
Definition quiet : Callback := fun _ _ => None.
Definition throwing : Callback := fun _ _ => Some (Error (lit "render failed")).

Definition frame_Hel : jsstring := quoted "data: {'choices':[{'delta':{'content':'Hel'}}]}".
Definition frame_lo : jsstring := quoted "data: {'choices':[{'delta':{'content':'lo'}}]}".
Definition frame_late : jsstring := quoted "data: {'choices':[{'delta':{'content':'late'}}]}".
Definition frame_sentinel : jsstring := lit "data: [DONE]".
Definition frame_broken : jsstring := quoted "data: {'choices':[{'delta':".
Definition frame_no_choices : jsstring := quoted "data: {'id':'gen-1'}".

End Fixtures.

(** A callback that throws when it is handed the string [s], and returns
    on every other delta. *)
Definition throws_on (s : jsstring) : Callback :=
  fun _ v =>
    match v with
    | VString t => if Js.eqb t s then Some (Error (lit "render failed")) else None
    | _ => None
    end.

(** What handling one payload does to the trace and to the decoder: the
    outcomes of the [try] block of [processLines] and of its [catch]. *)
Inductive frame_outcome `{Platform} (onChunk : Callback) (line data : jsstring)
    (st : Decoder) (tr : trace) : trace -> Decoder -> Prop :=
| frame_not_json :
    JSON_parse data = None ->
    frame_outcome onChunk line data st tr (tr ++ [ConsoleDebug debug_label line]) st
| frame_no_shape parsed e :
    JSON_parse data = Some parsed ->
    delta_content parsed = Throw e ->
    frame_outcome onChunk line data st tr (tr ++ [ConsoleDebug debug_label line]) st
| frame_no_delta parsed c :
    JSON_parse data = Some parsed ->
    delta_content parsed = Ok c ->
    ToBoolean c = false ->
    frame_outcome onChunk line data st tr tr st
| frame_delivered parsed c text :
    JSON_parse data = Some parsed ->
    delta_content parsed = Ok c ->
    ToBoolean c = true ->
    onChunk (deltas tr) c = None ->
    ToString c = Some text ->
    frame_outcome onChunk line data st tr (tr ++ [OnChunk c])
      {| buffer := buffer st; fullText := fullText st ++ text |}
| frame_callback_threw parsed c e :
    JSON_parse data = Some parsed ->
    delta_content parsed = Ok c ->
    ToBoolean c = true ->
    onChunk (deltas tr) c = Some e ->
    frame_outcome onChunk line data st tr
      (tr ++ [OnChunk c] ++ [ConsoleDebug debug_label line]) st
| frame_not_coercible parsed c :
    JSON_parse data = Some parsed ->
    delta_content parsed = Ok c ->
    ToBoolean c = true ->
    onChunk (deltas tr) c = None ->
    ToString c = None ->
    frame_outcome onChunk line data st tr
      (tr ++ [OnChunk c] ++ [ConsoleDebug debug_label line]) st.

(** The number of times the reader has been cancelled. *)
Fixpoint cancels (tr : trace) : nat :=
  match tr with
  | [] => 0
  | Cancel :: tr' => S (cancels tr')
  | _ :: tr' => cancels tr'
  end.

(* ================================================================== *)
(** * Facts about strings *)
(* ================================================================== *)

Lemma eqb_eq (a b : jsstring) : Js.eqb a b = true <-> a = b.
Proof.
  revert b; induction a as [|x a IH]; intros [|y b]; simpl;
    try (split; [discriminate | discriminate]); try tauto.
  rewrite andb_true_iff, N.eqb_eq, IH.
  split; [intros [-> ->]; reflexivity | intros E; inversion E; auto].
Qed.

Lemma eqb_refl (a : jsstring) : Js.eqb a a = true.
Proof. apply eqb_eq; reflexivity. Qed.

Lemma eqb_neq (a b : jsstring) : Js.eqb a b = false <-> a <> b.
Proof.
  destruct (Js.eqb a b) eqn:E.
  - apply eqb_eq in E; split; [discriminate | congruence].
  - split; [intros _ H; apply eqb_eq in H; congruence | reflexivity].
Qed.

Lemma indexOf_None (c : N) (s : jsstring) : indexOf c s = None <-> ~ In c s.
Proof.
  induction s as [|x s IH]; simpl.
  - tauto.
  - destruct (N.eqb_spec x c) as [->|Hne].
    + split; [discriminate | intros H; exfalso; apply H; auto].
    + destruct (indexOf c s).
      * split; [discriminate |].
        intros H; exfalso.
        assert (Hs : ~ In c s) by (intros Hin; apply H; auto).
        apply IH in Hs; discriminate.
      * split; [| reflexivity].
        intros _ [E | Hin]; [congruence | apply (proj1 IH); auto].
Qed.

Lemma indexOf_Some (c : N) (s : jsstring) (i : nat) :
  indexOf c s = Some i ->
  s = firstn i s ++ c :: skipn (i + 1) s /\ ~ In c (firstn i s) /\ i < length s.
Proof.
  revert i; induction s as [|x s IH]; simpl; intros i H; [discriminate |].
  destruct (N.eqb_spec x c) as [->|Hne].
  - inversion H; subst; simpl; repeat split; [tauto | lia].
  - destruct (indexOf c s) as [j|] eqn:E; [| discriminate].
    inversion H; subst; clear H.
    destruct (IH j eq_refl) as (Hs & Hn & Hl).
    simpl; repeat split.
    + f_equal; exact Hs.
    + intros [E' | Hin]; [congruence | tauto].
    + lia.
Qed.


Lemma indexOf_app (c : N) (line rest : jsstring) :
  ~ In c line -> indexOf c (line ++ c :: rest) = Some (length line).
Proof.
  induction line as [|x line IH]; simpl; intros Hn.
  - rewrite N.eqb_refl; reflexivity.
  - destruct (N.eqb_spec x c) as [->|_]; [exfalso; apply Hn; auto |].
    rewrite IH; [reflexivity | intros Hin; apply Hn; auto].
Qed.

Lemma slice_to_app (line rest : jsstring) (c : N) :
  slice_to (length line) (line ++ c :: rest) = line.
Proof.
  unfold slice_to; rewrite firstn_app, Nat.sub_diag, firstn_all; simpl.
  apply app_nil_r.
Qed.

Lemma slice_from_app (line rest : jsstring) (c : N) :
  slice_from (length line + 1) (line ++ c :: rest) = rest.
Proof.
  unfold slice_from; rewrite skipn_app.
  rewrite skipn_all2 by lia.
  replace (length line + 1 - length line) with 1 by lia; reflexivity.
Qed.

Lemma slice_from_shorter (i : nat) (s : jsstring) :
  i < length s -> length (slice_from (i + 1) s) < length s.
Proof. unfold slice_from; intros H; rewrite length_skipn; lia. Qed.

(** ** Splitting into lines *)

Lemma split_not_nil (c : N) (s : jsstring) : split c s <> [].
Proof.
  induction s as [|x s IH]; simpl; [discriminate |].
  destruct (x =? c)%N; [discriminate |].
  destruct (split c s); [contradiction | discriminate].
Qed.

Lemma join_split (c : N) (s : jsstring) : join [c] (split c s) = s.
Proof.
  induction s as [|x s IH]; simpl; [reflexivity |].
  destruct (N.eqb_spec x c) as [->|Hne].
  - pose proof (split_not_nil c s) as Hnn.
    destruct (split c s) as [|p ps] eqn:E; [contradiction |].
    simpl in *. rewrite IH; reflexivity.
  - pose proof (split_not_nil c s) as Hnn.
    destruct (split c s) as [|p ps] eqn:E; [contradiction |].
    simpl in *. destruct ps; simpl in *; rewrite <- IH; reflexivity.
Qed.

Lemma split_pieces (c : N) (s : jsstring) :
  Forall (fun piece => ~ In c piece) (split c s).
Proof.
  induction s as [|x s IH]; simpl.
  - constructor; [tauto | constructor].
  - destruct (N.eqb_spec x c) as [->|Hne].
    + constructor; [tauto | exact IH].
    + destruct (split c s) as [|p ps]; [constructor; [simpl; intuition congruence | constructor] |].
      inversion IH; subst.
      constructor; [simpl; intuition congruence | assumption].
Qed.

(** ** Trimming *)

Lemma trimStart_incl (s : jsstring) (c : N) : In c (trimStart s) -> In c s.
Proof.
  induction s as [|x s IH]; simpl; [tauto |].
  destruct (is_whitespace x); [right; auto | auto].
Qed.

Lemma trim_incl (s : jsstring) (c : N) : In c (trim s) -> In c s.
Proof.
  unfold trim, trimEnd; intros H.
  apply in_rev, trimStart_incl in H.
  apply in_rev in H. apply trimStart_incl; exact H.
Qed.

Lemma trimStart_blank (s : jsstring) :
  forallb is_whitespace s = true -> trimStart s = [].
Proof.
  induction s as [|x s IH]; simpl; [reflexivity |].
  intros H; apply andb_true_iff in H as [Hx Hs]; rewrite Hx; auto.
Qed.

Lemma trim_blank (s : jsstring) : forallb is_whitespace s = true -> trim s = [].
Proof. intros H; unfold trim, trimEnd; rewrite (trimStart_blank s H); reflexivity. Qed.

Lemma trimStart_head (s : jsstring) :
  match trimStart s with
  | [] => True
  | c :: _ => is_whitespace c = false
  end.
Proof.
  induction s as [|x s IH]; simpl; [exact I |].
  destruct (is_whitespace x) eqn:E; [exact IH | simpl; exact E].
Qed.

Lemma trimStart_keeps_head (s : jsstring) :
  match s with
  | [] => True
  | c :: _ => is_whitespace c = false -> trimStart s = s
  end.
Proof. destruct s as [|c s]; simpl; [exact I | intros ->; reflexivity]. Qed.

(** [trimStart] removes a prefix: what is left ends as the text does. *)
Lemma trimStart_suffix (s : jsstring) : exists pre, s = pre ++ trimStart s.
Proof.
  induction s as [|x s [pre IH]]; simpl.
  - exists []; reflexivity.
  - destruct (is_whitespace x).
    + exists (x :: pre); simpl; f_equal; exact IH.
    + exists []; reflexivity.
Qed.

(** The trimmed text neither starts nor ends with white space. *)
Lemma trim_head (s : jsstring) :
  match trim s with
  | [] => True
  | c :: _ => is_whitespace c = false
  end.
Proof.
  unfold trim, trimEnd.
  pose proof (trimStart_head s) as Hh.
  destruct (trimStart_suffix (rev (trimStart s))) as [pre Hpre].
  apply (f_equal (@rev N)) in Hpre.
  rewrite rev_involutive, rev_app_distr in Hpre.
  destruct (rev (trimStart (rev (trimStart s)))) as [|c t] eqn:E; [exact I |].
  rewrite Hpre in Hh; simpl in Hh; exact Hh.
Qed.

Lemma trim_last (s : jsstring) :
  match rev (trim s) with
  | [] => True
  | c :: _ => is_whitespace c = false
  end.
Proof.
  unfold trim, trimEnd; rewrite rev_involutive.
  apply trimStart_head.
Qed.

(* ================================================================== *)
(** * Facts about traces and computations *)
(* ================================================================== *)

Lemma deltas_app (a b : trace) : deltas (a ++ b) = deltas a ++ deltas b.
Proof.
  induction a as [|e a IH]; simpl; [reflexivity |].
  destruct e; simpl; rewrite IH; reflexivity.
Qed.

Lemma fetches_app (a b : trace) : fetches (a ++ b) = fetches a ++ fetches b.
Proof.
  induction a as [|e a IH]; simpl; [reflexivity |].
  destruct e; simpl; rewrite IH; reflexivity.
Qed.

Lemma cancels_app (a b : trace) : cancels (a ++ b) = cancels a + cancels b.
Proof.
  induction a as [|e a IH]; simpl; [reflexivity |].
  destruct e; simpl; rewrite IH; reflexivity.
Qed.

Ltac run_monad :=
  unfold console_error, console_debug, fetch, interpolate, JSON_parse_or_throw,
    call_onChunk in *;
  unfold bind, ret, throw, lift, emit, try_catch, try_finally in *.

(* ================================================================== *)
(** * Facts about the stream decoder *)
(* ================================================================== *)

Section DecoderFacts.
Context {P : Platform}.
Variable onChunk : Callback.

(** One payload: the [try] block never lets an exception out, and its
    effect is one of the six outcomes. *)
Lemma process_data_outcome (line data : jsstring) (st : Decoder) (tr : trace) :
  exists tr' st',
    process_data onChunk line data st tr = (tr', Ok st')
    /\ frame_outcome onChunk line data st tr tr' st'.
Proof.
  unfold process_data; run_monad.
  destruct (JSON_parse data) as [parsed|] eqn:Hp.
  2:{ eexists _, _; split; [reflexivity | apply frame_not_json; exact Hp]. }
  destruct (delta_content parsed) as [c|e] eqn:Hc.
  2:{ eexists _, _; split; [reflexivity | eapply frame_no_shape; eauto]. }
  destruct (ToBoolean c) eqn:Hb.
  2:{ eexists _, _; split; [reflexivity | eapply frame_no_delta; eauto]. }
  destruct (onChunk (deltas tr) c) as [e|] eqn:Hcb.
  { eexists _, _; split; [rewrite <- app_assoc; reflexivity |].
    eapply frame_callback_threw; eauto. }
  destruct (ToString c) as [text|] eqn:Hs.
  - eexists _, _; split; [reflexivity | eapply frame_delivered; eauto].
  - eexists _, _; split; [rewrite <- app_assoc; reflexivity |].
    eapply frame_not_coercible; eauto.
Qed.

Lemma frame_outcome_buffer line data st tr tr' st' :
  frame_outcome onChunk line data st tr tr' st' -> buffer st' = buffer st.
Proof. destruct 1; reflexivity. Qed.


(** The fuel [processLines] gives its loop is enough: more changes
    nothing. *)
Lemma processLines_loop_fuel (f1 f2 : nat) (st : Decoder) (tr : trace) :
  length (buffer st) < f1 -> length (buffer st) < f2 ->
  processLines_loop onChunk f1 st tr = processLines_loop onChunk f2 st tr.
Proof.
  revert f2 st tr; induction f1 as [|f1 IH]; intros f2 st tr H1 H2; [lia |].
  destruct f2 as [|f2]; [lia |].
  simpl.
  destruct (indexOf NL (buffer st)) as [lineEnd|] eqn:Hi; [| reflexivity].
  apply indexOf_Some in Hi as (_ & _ & Hlt).
  pose proof (slice_from_shorter _ _ Hlt) as Hs.
  destruct (isEmpty _ || negb _).
  - apply IH; simpl; lia.
  - destruct (Js.eqb _ DONE); [reflexivity |].
    unfold bind.
    match goal with
    | |- context [process_data onChunk ?l ?d ?s tr] =>
      destruct (process_data_outcome l d s tr) as (tr' & st' & E & O)
    end.
    rewrite E. apply frame_outcome_buffer in O.
    apply IH; rewrite O; simpl; lia.
Qed.

(** The loop of [processLines], as the source writes it. *)
Lemma processLines_unfold (st : Decoder) (tr : trace) :
  processLines onChunk st tr =
  match indexOf NL (buffer st) with
  | None => ret st tr
  | Some lineEnd =>
    let line := trim (slice_to lineEnd (buffer st)) in
    let st1 := {| buffer := slice_from (lineEnd + 1) (buffer st);
                  fullText := fullText st |} in
    if isEmpty line || negb (startsWith data_prefix line) then
      processLines onChunk st1 tr
    else
      let data := slice_from 6 line in
      if Js.eqb data DONE then ret st1 tr
      else (st' <- process_data onChunk line data st1 ;;
            processLines onChunk st') tr
  end.
Proof.
  unfold processLines at 1; simpl.
  destruct (indexOf NL (buffer st)) as [lineEnd|] eqn:Hi; [| reflexivity].
  apply indexOf_Some in Hi as (_ & _ & Hlt).
  pose proof (slice_from_shorter _ _ Hlt) as Hs.
  cbv zeta.
  destruct (isEmpty _ || negb _).
  - apply processLines_loop_fuel; simpl; lia.
  - destruct (Js.eqb _ DONE); [reflexivity |].
    unfold bind.
    match goal with
    | |- context [process_data onChunk ?l ?d ?s tr] =>
      destruct (process_data_outcome l d s tr) as (tr' & st' & E & O)
    end.
    rewrite E. apply frame_outcome_buffer in O.
    apply processLines_loop_fuel; rewrite O; simpl; lia.
Qed.

(** An invariant of the accumulated text and the trace that every frame
    outcome preserves holds after a pass; a pass never throws. *)
Lemma processLines_loop_invariant (I : jsstring -> trace -> Prop) :
  (forall line data st tr tr' st',
      I (fullText st) tr -> frame_outcome onChunk line data st tr tr' st' ->
      I (fullText st') tr') ->
  forall fuel st tr,
    I (fullText st) tr ->
    exists tr' st',
      processLines_loop onChunk fuel st tr = (tr', Ok st') /\ I (fullText st') tr'.
Proof.
  intros Hstep; induction fuel as [|fuel IH]; intros st tr HI; simpl.
  - eexists _, _; split; [reflexivity | exact HI].
  - destruct (indexOf NL (buffer st)) as [lineEnd|];
      [| eexists _, _; split; [reflexivity | exact HI]].
    destruct (isEmpty _ || negb _); [apply IH; exact HI |].
    destruct (Js.eqb _ DONE); [eexists _, _; split; [reflexivity | exact HI] |].
    unfold bind.
    match goal with
    | |- context [process_data onChunk ?l ?d ?s tr] =>
      destruct (process_data_outcome l d s tr) as (tr' & st' & E & O)
    end.
    rewrite E. apply IH. eapply Hstep; [| exact O]. exact HI.
Qed.

Lemma processLines_invariant (I : jsstring -> trace -> Prop) :
  (forall line data st tr tr' st',
      I (fullText st) tr -> frame_outcome onChunk line data st tr tr' st' ->
      I (fullText st') tr') ->
  forall st tr,
    I (fullText st) tr ->
    exists tr' st',
      processLines onChunk st tr = (tr', Ok st') /\ I (fullText st') tr'.
Proof. intros Hstep st tr; apply processLines_loop_invariant; exact Hstep. Qed.

(** The read loop preserves such an invariant too, whether it runs to the
    end of the source or stops at a failed read. *)
Lemma read_loop_invariant (I : jsstring -> trace -> Prop) :
  (forall line data st tr tr' st',
      I (fullText st) tr -> frame_outcome onChunk line data st tr tr' st' ->
      I (fullText st') tr') ->
  forall reads st tr,
    I (fullText st) tr ->
    exists tr' r,
      read_loop onChunk reads st tr = (tr', r)
      /\ match r with
         | Ok st' => I (fullText st') tr'
         | Throw _ => exists text, I text tr'
         end.
Proof.
  intros Hstep; induction reads as [|[text|e] reads IH]; intros st tr HI; simpl.
  - eexists _, _; split; [reflexivity | exact HI].
  - unfold bind.
    destruct (processLines_invariant I Hstep
                {| buffer := buffer st ++ text; fullText := fullText st |} tr HI)
      as (tr1 & st1 & E & HI1).
    rewrite E. apply IH; exact HI1.
  - eexists _, _; split; [reflexivity |]. exists (fullText st); exact HI.
Qed.

Lemma flush_invariant (I : jsstring -> trace -> Prop) :
  (forall line data st tr tr' st',
      I (fullText st) tr -> frame_outcome onChunk line data st tr tr' st' ->
      I (fullText st') tr') ->
  forall st tr,
    I (fullText st) tr ->
    exists tr' st',
      flush onChunk st tr = (tr', Ok st') /\ I (fullText st') tr'.
Proof.
  intros Hstep st tr HI; unfold flush.
  destruct (negb _).
  - apply (processLines_invariant I Hstep
             {| buffer := buffer st ++ [NL]; fullText := fullText st |} tr HI).
  - eexists _, _; split; [reflexivity | exact HI].
Qed.

End DecoderFacts.

(* ================================================================== *)
(** * Facts about the dispatcher *)
(* ================================================================== *)

Lemma API_KEY_empty (env : Env) :
  API_KEY env = [] <->
  VITE_OPENROUTER_API_KEY env = None \/ VITE_OPENROUTER_API_KEY env = Some [].
Proof.
  unfold API_KEY, or_else.
  destruct (VITE_OPENROUTER_API_KEY env) as [[|c s]|]; simpl.
  - split; auto.
  - split; [discriminate | intros [H|H]; discriminate].
  - split; auto.
Qed.

Lemma isEmpty_false (s : jsstring) : s <> [] -> isEmpty s = false.
Proof. destruct s; [contradiction | reflexivity]. Qed.

Section DispatcherFacts.
Context {P : Platform}.
Variable env : Env.
Variable net : Network.

Lemma chat_without_key messages model temperature tr :
  API_KEY env = [] ->
  sendChatRequest env net messages model temperature tr =
  (tr ++ [ConsoleError chat_log_label (Error msg_no_key)], Throw (Error msg_no_key)).
Proof. intros H; unfold sendChatRequest; rewrite H; reflexivity. Qed.

Lemma streaming_without_key onChunk messages model temperature tr :
  API_KEY env = [] ->
  sendStreamingChatRequest env net onChunk messages model temperature tr =
  (tr ++ [ConsoleError streaming_log_label (Error msg_no_key)],
   Throw (Error msg_no_key)).
Proof. intros H; unfold sendStreamingChatRequest; rewrite H; reflexivity. Qed.

(** Reading the error body emits nothing. *)
Lemma response_json_silent (r : Response) (tr : trace) :
  fst (response_json r tr) = tr.
Proof.
  unfold response_json; run_monad.
  destruct (body_text _); simpl; [| reflexivity].
  destruct (JSON_parse _); reflexivity.
Qed.

Lemma api_error_message_silent (errorData : value) (r : Response) (tr : trace) :
  fst (api_error_message errorData r tr) = tr.
Proof.
  unfold api_error_message; run_monad.
  destruct (get errorData _); simpl; [| reflexivity].
  destruct (opt_get _ _); simpl; [| reflexivity].
  destruct (ToString _); reflexivity.
Qed.

(** Streaming, a status outside 200..299: whatever the body holds, the
    error raised is the one built from the status line. *)
Lemma streaming_http_error onChunk messages model temperature tr response :
  API_KEY env <> [] ->
  net (streaming_request env messages model temperature) = Ok response ->
  ok response = false ->
  let failure :=
    Error (msg_failed ++ of_N (status response) ++ lit " " ++ statusText response) in
  sendStreamingChatRequest env net onChunk messages model temperature tr =
  (tr ++ [Fetch (streaming_request env messages model temperature)]
      ++ [ConsoleError streaming_log_label failure],
   Throw failure).
Proof.
  intros Hkey Hnet Hok failure.
  unfold sendStreamingChatRequest.
  rewrite (isEmpty_false _ Hkey).
  run_monad. rewrite Hnet, Hok. simpl negb. cbv iota.
  pose proof (response_json_silent response
                (tr ++ [Fetch (streaming_request env messages model temperature)])) as Hj.
  unfold response_json in *; run_monad.
  destruct (body_text _) as [text|e]; simpl in *.
  2:{ rewrite <- app_assoc; reflexivity. }
  destruct (JSON_parse text) as [errorData|]; simpl in *.
  2:{ rewrite <- app_assoc; reflexivity. }
  pose proof (api_error_message_silent errorData response
                (tr ++ [Fetch (streaming_request env messages model temperature)])) as Hm.
  destruct (api_error_message errorData response _) as [tr2 [m|e]];
    simpl in Hm; subst tr2; rewrite <- app_assoc; reflexivity.
Qed.

(** Non-streaming, a status outside 200..299 and a body that is not
    JSON: the parse failure itself is what the caller receives. *)
Lemma chat_http_error_unparsed messages model temperature tr response text :
  API_KEY env <> [] ->
  net (chat_request env messages model temperature) = Ok response ->
  ok response = false ->
  body response = Some (map Chunk [text]) ->
  JSON_parse text = None ->
  sendChatRequest env net messages model temperature tr =
  (tr ++ [Fetch (chat_request env messages model temperature)]
      ++ [ConsoleError chat_log_label SyntaxError],
   Throw SyntaxError).
Proof.
  intros Hkey Hnet Hok Hbody Hparse.
  unfold sendChatRequest.
  rewrite (isEmpty_false _ Hkey).
  unfold response_json; run_monad.
  rewrite Hnet, Hok, Hbody. simpl. rewrite app_nil_r, Hparse.
  rewrite <- app_assoc; reflexivity.
Qed.

(** Non-streaming, a status outside 200..299 and a JSON body with a
    non-empty [error.message] string: the message is in the error. *)
Lemma chat_http_error_message messages model temperature tr response text fields
      error_fields message :
  API_KEY env <> [] ->
  net (chat_request env messages model temperature) = Ok response ->
  ok response = false ->
  body response = Some (map Chunk [text]) ->
  JSON_parse text = Some (VObject fields) ->
  lookup (lit "error") fields = Some (VObject error_fields) ->
  lookup (lit "message") error_fields = Some (VString message) ->
  message <> [] ->
  sendChatRequest env net messages model temperature tr =
  (tr ++ [Fetch (chat_request env messages model temperature)]
      ++ [ConsoleError chat_log_label (Error (msg_failed ++ message))],
   Throw (Error (msg_failed ++ message))).
Proof.
  intros Hkey Hnet Hok Hbody Hparse Herr Hmsg Hne.
  unfold sendChatRequest.
  rewrite (isEmpty_false _ Hkey).
  unfold response_json, api_error_message; run_monad.
  rewrite Hnet, Hok, Hbody. simpl. rewrite app_nil_r, Hparse.
  simpl. rewrite Herr. simpl. rewrite Hmsg.
  unfold or_value; simpl. rewrite (isEmpty_false _ Hne); simpl.
  rewrite <- app_assoc; reflexivity.
Qed.

End DispatcherFacts.

(* ================================================================== *)
(** * Facts about the suggestions *)
(* ================================================================== *)

Lemma trimStart_fixed (s : jsstring) :
  match s with [] => True | c :: _ => is_whitespace c = false end ->
  trimStart s = s.
Proof. destruct s as [|c s]; simpl; [reflexivity | intros ->; reflexivity]. Qed.

Lemma trim_idempotent (s : jsstring) : trim (trim s) = trim s.
Proof.
  unfold trim at 1, trimEnd.
  rewrite (trimStart_fixed (trim s) (trim_head s)).
  rewrite (trimStart_fixed (rev (trim s)) (trim_last s)).
  apply rev_involutive.
Qed.

Lemma split_In (c x : N) (s piece : jsstring) :
  In piece (split c s) -> In x piece -> In x s.
Proof.
  revert piece; induction s as [|y s IH]; simpl; intros piece Hp Hx.
  - destruct Hp as [<- | []]; exact Hx.
  - destruct (y =? c)%N.
    + destruct Hp as [<- | Hp]; [destruct Hx | right; eauto].
    + destruct (split c s) as [|p ps].
      * destruct Hp as [<- | []].
        destruct Hx as [-> | []]; auto.
      * destruct Hp as [<- | Hp].
        -- destruct Hx as [-> | Hx]; [auto | right; apply (IH p); simpl; auto].
        -- right; apply (IH piece); simpl; auto.
Qed.

Lemma blank_text_has_no_lines (text : jsstring) :
  forallb is_whitespace text = true ->
  filter nonblank (map trim (split NL text)) = [].
Proof.
  intros Hb.
  assert (Hall : forall piece, In piece (split NL text) -> trim piece = []).
  { intros piece Hp. apply trim_blank, forallb_forall.
    intros x Hx. rewrite forallb_forall in Hb. apply Hb.
    eapply split_In; eauto. }
  induction (split NL text) as [|p ps IH]; simpl; [reflexivity |].
  rewrite (Hall p) by (simpl; auto). simpl.
  apply IH. intros piece Hp; apply Hall; simpl; auto.
Qed.

Lemma In_firstn {A} (n : nat) (l : list A) (x : A) : In x (firstn n l) -> In x l.
Proof.
  intros H. rewrite <- (firstn_skipn n l). apply in_or_app; auto.
Qed.

Lemma suggestions_shape (lines : list jsstring) :
  let suggestions := firstn 5 (filter nonblank (map trim lines)) in
  length suggestions <= 5
  /\ Forall (fun s => s <> [] /\ trim s = s) suggestions.
Proof.
  cbv zeta; split.
  - rewrite length_firstn; lia.
  - apply Forall_forall; intros s Hs.
    apply In_firstn, filter_In in Hs as [Hin Hnb].
    apply in_map_iff in Hin as (l & <- & _).
    split; [| apply trim_idempotent].
    unfold nonblank in Hnb. destruct (trim l); [discriminate | discriminate].
Qed.

Lemma placeholder_shape :
  length [placeholder] <= 5 /\ Forall (fun s => s <> [] /\ trim s = s) [placeholder].
Proof.
  split; [simpl; lia |].
  constructor; [| constructor].
  split; [vm_compute; discriminate | vm_compute; reflexivity].
Qed.

(* ================================================================== *)
(** * Facts about the streaming call *)
(* ================================================================== *)

Section StreamingFacts.
Context {P : Platform}.
Variable env : Env.
Variable net : Network.
Variable onChunk : Callback.

(** Once the reader is acquired, the call ends in one of two ways, and
    both cancel the reader after the last event of the decoding. *)
Lemma streaming_with_reader messages model temperature tr response reads :
  API_KEY env <> [] ->
  net (streaming_request env messages model temperature) = Ok response ->
  ok response = true ->
  body response = Some reads ->
  sendStreamingChatRequest env net onChunk messages model temperature tr =
  match drain onChunk reads (tr ++ [Fetch (streaming_request env messages model temperature)]) with
  | (tr1, Ok st) => (tr1 ++ [Cancel], Ok (fullText st))
  | (tr1, Throw e) =>
    (tr1 ++ [Cancel] ++ [ConsoleError streaming_log_label e], Throw e)
  end.
Proof.
  intros Hkey Hnet Hok Hbody.
  unfold sendStreamingChatRequest.
  rewrite (isEmpty_false _ Hkey).
  run_monad. rewrite Hnet, Hok, Hbody. cbn [negb]. cbv beta iota.
  destruct (drain onChunk reads _) as [tr1 [st|e]]; [reflexivity |].
  rewrite <- app_assoc; reflexivity.
Qed.


(** An invariant of the accumulated text and the trace that every frame
    outcome preserves holds when the decoding ends, by return or by a
    failed read. *)
Lemma drain_invariant (I : jsstring -> trace -> Prop) :
  (forall line data st tr tr' st',
      I (fullText st) tr -> frame_outcome onChunk line data st tr tr' st' ->
      I (fullText st') tr') ->
  forall reads tr,
    I [] tr ->
    exists tr' r,
      drain onChunk reads tr = (tr', r)
      /\ match r with
         | Ok st' => I (fullText st') tr'
         | Throw _ => exists text, I text tr'
         end.
Proof.
  intros Hstep reads tr HI. unfold drain, bind.
  destruct (read_loop_invariant onChunk I Hstep reads
              {| buffer := []; fullText := [] |} tr HI)
    as (tr1 & r & E & Hr).
  rewrite E. destruct r as [st|e].
  - destruct (flush_invariant onChunk I Hstep st tr1 Hr) as (tr2 & st2 & E2 & H2).
    exists tr2, (Ok st2); auto.
  - exists tr1, (Throw e); auto.
Qed.

(** Decoding cancels nothing: every event it adds is a callback
    invocation or a debug log. *)
Lemma drain_adds_no_cancel reads tr :
  exists mid r,
    drain onChunk reads tr = (tr ++ mid, r) /\ cancels mid = 0 /\ fetches mid = [].
Proof.
  destruct (drain_invariant
              (fun _ tr' => exists mid, tr' = tr ++ mid /\ cancels mid = 0
                                        /\ fetches mid = [])) with (reads := reads) (tr := tr)
    as (tr' & r & E & Hr).
  - intros line data st t t' st' (mid & -> & Hc & Hf) O.
    destruct O;
      try (exists mid; auto; fail);
      rewrite <- app_assoc; eexists; (split; [reflexivity |]);
      rewrite cancels_app, fetches_app, Hc, Hf; simpl; auto.
  - exists []; rewrite app_nil_r; auto.
  - assert (Hmid : exists mid, tr' = tr ++ mid /\ cancels mid = 0 /\ fetches mid = []).
    { destruct r; [exact Hr | destruct Hr as [_ Hr]; exact Hr]. }
    destruct Hmid as (mid & -> & Hc & Hf).
    exists mid, r; auto.
Qed.



End StreamingFacts.

(* ================================================================== *)
(** * Facts about single lines *)
(* ================================================================== *)

Lemma startsWith_split (p s : jsstring) :
  startsWith p s = true -> s = p ++ slice_from (length p) s.
Proof.
  revert s; induction p as [|x p IH]; intros s H; simpl in *; [reflexivity |].
  destruct s as [|y s]; [discriminate |].
  apply andb_true_iff in H as [Hxy Hp].
  apply N.eqb_eq in Hxy; subst y.
  simpl. f_equal. apply IH; exact Hp.
Qed.

Section LineFacts.
Context {P : Platform}.
Variable onChunk : Callback.

(** The first line of the buffer is a [data: ] frame other than the
    sentinel: the pass handles its payload and goes on with the rest. *)
Lemma processLines_data_line (line payload rest ft : jsstring) (tr : trace) :
  ~ In NL line ->
  trim line = data_prefix ++ payload ->
  payload <> DONE ->
  processLines onChunk {| buffer := line ++ NL :: rest; fullText := ft |} tr =
  (st' <- process_data onChunk (trim line) payload
            {| buffer := rest; fullText := ft |} ;;
   processLines onChunk st') tr.
Proof.
  intros Hline Hframe Hnot.
  rewrite processLines_unfold. simpl buffer.
  rewrite (indexOf_app NL line rest Hline).
  cbv zeta. rewrite slice_to_app, slice_from_app, Hframe.
  change (isEmpty (data_prefix ++ payload)
          || negb (startsWith data_prefix (data_prefix ++ payload))) with false.
  cbv iota.
  change (slice_from 6 (data_prefix ++ payload)) with payload.
  apply eqb_neq in Hnot. rewrite Hnot. reflexivity.
Qed.

(** The first line of the buffer is the sentinel: the pass stops there
    and leaves the rest in the buffer. *)
Lemma processLines_sentinel_line (line rest ft : jsstring) (tr : trace) :
  ~ In NL line ->
  trim line = data_prefix ++ DONE ->
  processLines onChunk {| buffer := line ++ NL :: rest; fullText := ft |} tr =
  (tr, Ok {| buffer := rest; fullText := ft |}).
Proof.
  intros Hline Hframe.
  rewrite processLines_unfold. simpl buffer.
  rewrite (indexOf_app NL line rest Hline).
  cbv zeta. rewrite slice_to_app, slice_from_app, Hframe.
  reflexivity.
Qed.

(** The first line of the buffer is not a [data: ] frame: the pass goes
    on with the rest. *)
Lemma processLines_other_line (line rest ft : jsstring) (tr : trace) :
  ~ In NL line ->
  startsWith data_prefix (trim line) = false ->
  processLines onChunk {| buffer := line ++ NL :: rest; fullText := ft |} tr =
  processLines onChunk {| buffer := rest; fullText := ft |} tr.
Proof.
  intros Hline Hother.
  rewrite processLines_unfold. simpl buffer.
  rewrite (indexOf_app NL line rest Hline).
  cbv zeta. rewrite slice_to_app, slice_from_app, Hother.
  rewrite orb_true_r. reflexivity.
Qed.

(** A buffer without a newline is left as it is. *)
Lemma processLines_partial (st : Decoder) (tr : trace) :
  ~ In NL (buffer st) -> processLines onChunk st tr = (tr, Ok st).
Proof.
  intros H. rewrite processLines_unfold.
  apply indexOf_None in H. rewrite H. reflexivity.
Qed.

(** A payload that is not JSON or carries no delta changes nothing but
    the debug log. *)
Lemma process_data_malformed (line payload : jsstring) (st : Decoder) (tr : trace) :
  malformed payload ->
  exists log,
    process_data onChunk line payload st tr = (tr ++ log, Ok st)
    /\ (log = [] \/ log = [ConsoleDebug debug_label line]).
Proof.
  unfold malformed, lacks_delta, process_data; run_monad.
  destruct (JSON_parse payload) as [parsed|].
  - intros [[e He] | Hu]; [rewrite He | rewrite Hu]; simpl.
    + exists [ConsoleDebug debug_label line]; auto.
    + exists []; rewrite app_nil_r; auto.
  - intros _. exists [ConsoleDebug debug_label line]; auto.
Qed.

(** A payload whose delta is a non-empty string, with a callback that
    returns: the delta is handed to the callback and appended. *)
Lemma process_data_delta (line payload s : jsstring) (parsed : value)
      (st : Decoder) (tr : trace) :
  JSON_parse payload = Some parsed ->
  delta_content parsed = Ok (VString s) ->
  s <> [] ->
  onChunk (deltas tr) (VString s) = None ->
  process_data onChunk line payload st tr =
  (tr ++ [OnChunk (VString s)],
   Ok {| buffer := buffer st; fullText := fullText st ++ s |}).
Proof.
  intros Hp Hc Hs Hcb.
  unfold process_data; run_monad.
  rewrite Hp, Hc. simpl. rewrite (isEmpty_false _ Hs). simpl.
  rewrite Hcb. reflexivity.
Qed.


End LineFacts.

(** ** Frames without a delta *)

Lemma missing_member_lacks_delta (parsed : value) :
  missing_member parsed -> lacks_delta parsed.
Proof.
  intros [fields Hc | fields Hc | fields first others Hc Hd
          | fields first others delta Hc Hd Hn].
  - left. exists TypeError. unfold delta_content, get. rewrite Hc. reflexivity.
  - right. unfold delta_content, get. rewrite Hc. reflexivity.
  - right. unfold delta_content, get. rewrite Hc. simpl.
    unfold opt_get, get. simpl. rewrite Hd. reflexivity.
  - right. unfold delta_content, get. rewrite Hc. simpl.
    unfold opt_get, get. simpl. rewrite Hd. simpl. rewrite Hn. reflexivity.
Qed.

(** A payload that parses to an object lacking [choices], a first choice,
    its [delta] or the delta's [content] is malformed. *)
Lemma missing_member_malformed `{Platform} (payload : jsstring) (parsed : value) :
  JSON_parse payload = Some parsed -> missing_member parsed -> malformed payload.
Proof.
  intros Hp Hm. unfold malformed. rewrite Hp.
  apply missing_member_lacks_delta; exact Hm.
Qed.

Lemma lacks_delta_null : lacks_delta VNull.
Proof. left. exists TypeError. reflexivity. Qed.

(** ** Frames with a delta *)

Section DeliveryFacts.
Context {P : Platform}.
Variable onChunk : Callback.

(** A payload whose delta is a non-empty string is handed to the
    callback, whatever the callback then does; when the callback returns,
    the string is appended to the accumulated text. *)
Lemma process_data_delivers (line payload s b ft : jsstring) (parsed : value)
      (tr : trace) :
  JSON_parse payload = Some parsed ->
  delta_content parsed = Ok (VString s) ->
  s <> [] ->
  exists log ft',
    process_data onChunk line payload {| buffer := b; fullText := ft |} tr
    = (tr ++ [OnChunk (VString s)] ++ log, Ok {| buffer := b; fullText := ft' |})
    /\ deltas log = []
    /\ (onChunk (deltas tr) (VString s) = None -> ft' = ft ++ s).
Proof.
  intros Hp Hc Hs.
  unfold process_data; run_monad.
  rewrite Hp, Hc. simpl. rewrite (isEmpty_false _ Hs). simpl.
  destruct (onChunk (deltas tr) (VString s)) as [e|].
  - exists [ConsoleDebug debug_label line], ft.
    split; [rewrite <- app_assoc; reflexivity |].
    split; [reflexivity | discriminate].
  - exists [], (ft ++ s).
    split; [reflexivity |].
    split; [reflexivity | reflexivity].
Qed.

(** A [data: ] line at the head of the buffer whose delta is a non-empty
    string: the pass hands the string to the callback and goes on with the
    rest of the buffer. *)
Lemma processLines_delivers (line payload s rest ft : jsstring) (parsed : value)
      (tr : trace) :
  ~ In NL line ->
  trim line = data_prefix ++ payload ->
  payload <> DONE ->
  JSON_parse payload = Some parsed ->
  delta_content parsed = Ok (VString s) ->
  s <> [] ->
  exists log ft',
    processLines onChunk {| buffer := line ++ NL :: rest; fullText := ft |} tr
    = processLines onChunk {| buffer := rest; fullText := ft' |}
        (tr ++ [OnChunk (VString s)] ++ log)
    /\ deltas log = []
    /\ (onChunk (deltas tr) (VString s) = None -> ft' = ft ++ s).
Proof.
  intros Hline Hframe Hnot Hp Hc Hs.
  destruct (process_data_delivers (trim line) payload s rest ft parsed tr Hp Hc Hs)
    as (log & ft' & E & Hlog & Hft).
  exists log, ft'. split; [| split; assumption].
  rewrite (processLines_data_line onChunk line payload rest ft tr Hline Hframe Hnot).
  unfold bind. rewrite E. reflexivity.
Qed.

(** What a malformed payload adds to the trace depends on the payload
    alone: nothing, or the debug log of its line. *)
Lemma process_data_malformed_log (line payload : jsstring) :
  malformed payload ->
  exists log,
    (log = [] \/ log = [ConsoleDebug debug_label line])
    /\ forall st tr, process_data onChunk line payload st tr = (tr ++ log, Ok st).
Proof.
  unfold malformed, lacks_delta. intros Hbad.
  destruct (JSON_parse payload) as [parsed|] eqn:Hp.
  - destruct Hbad as [[e He] | Hu].
    + exists [ConsoleDebug debug_label line]. split; [auto |].
      intros st tr. unfold process_data; run_monad. rewrite Hp, He. reflexivity.
    + exists []. split; [auto |].
      intros st tr. unfold process_data; run_monad. rewrite Hp, Hu. simpl.
      rewrite app_nil_r. reflexivity.
  - exists [ConsoleDebug debug_label line]. split; [auto |].
    intros st tr. unfold process_data; run_monad. rewrite Hp. reflexivity.
Qed.

(** A pass returns, and only adds to the deltas handed to the callback. *)
Lemma processLines_deltas_extend (st : Decoder) (tr : trace) :
  exists tr' st' more,
    processLines onChunk st tr = (tr', Ok st') /\ deltas tr' = deltas tr ++ more.
Proof.
  destruct (processLines_invariant onChunk
              (fun _ t => exists more, deltas t = deltas tr ++ more)) with
    (st := st) (tr := tr) as (tr' & st' & E & more & Hmore).
  - intros line data s t t' s' (more & Hmore) O.
    destruct O;
      try (exists more; rewrite ?deltas_app, Hmore; simpl;
           rewrite ?app_nil_r; reflexivity);
      exists (more ++ [c]); rewrite !deltas_app, Hmore; simpl;
      rewrite ?app_nil_r, <- ?app_assoc; reflexivity.
  - exists []; rewrite app_nil_r; reflexivity.
  - exists tr', st', more; auto.
Qed.

End DeliveryFacts.

(* ================================================================== *)
(** * Properties of the service *)
(* ================================================================== *)

(** C4. A [data: ] line whose payload is not JSON, or whose JSON carries
    no delta (reading [choices[0]?.delta?.content] fails or gives
    [undefined]), is dropped: the pass on a buffer that starts with the
    line is the pass on the rest of the buffer with the same accumulated
    text, after at most a debug log, and the callback is not invoked for
    the line. Between two frames that carry the deltas [s1] and [s2] it
    does not stop the pass: the callback is handed [s1] and then [s2] and
    nothing between them, both are appended to the accumulated text when
    the callback returns on them, the pass goes on with the rest of the
    buffer, and it ends without an exception. *)
Theorem malformed_frame_is_dropped_and_decoding_continues
    {P : Platform} (onChunk : Callback)
    (before payload1 : jsstring) (parsed1 : value) (s1 : jsstring)
    (line payload : jsstring)
    (after payload2 : jsstring) (parsed2 : value) (s2 : jsstring)
    (rest ft : jsstring) (tr : trace) :
  ~ In NL before ->
  trim before = data_prefix ++ payload1 ->
  payload1 <> DONE ->
  JSON_parse payload1 = Some parsed1 ->
  delta_content parsed1 = Ok (VString s1) ->
  s1 <> [] ->
  ~ In NL line ->
  trim line = data_prefix ++ payload ->
  payload <> DONE ->
  malformed payload ->
  ~ In NL after ->
  trim after = data_prefix ++ payload2 ->
  payload2 <> DONE ->
  JSON_parse payload2 = Some parsed2 ->
  delta_content parsed2 = Ok (VString s2) ->
  s2 <> [] ->
  let frames := before ++ NL :: line ++ NL :: after ++ NL :: rest in
  (exists log,
     (log = [] \/ log = [ConsoleDebug debug_label (trim line)])
     /\ forall following text tr0,
          deltas (tr0 ++ log) = deltas tr0
          /\ processLines onChunk
               {| buffer := line ++ NL :: following; fullText := text |} tr0
             = processLines onChunk
                 {| buffer := following; fullText := text |} (tr0 ++ log))
  /\ (exists tr2 ft2,
        processLines onChunk {| buffer := frames; fullText := ft |} tr
        = processLines onChunk {| buffer := rest; fullText := ft2 |} tr2
        /\ deltas tr2 = deltas tr ++ [VString s1; VString s2]
        /\ (onChunk (deltas tr) (VString s1) = None ->
            onChunk (deltas tr ++ [VString s1]) (VString s2) = None ->
            ft2 = ft ++ s1 ++ s2))
  /\ (exists tr' st' more,
        processLines onChunk {| buffer := frames; fullText := ft |} tr
        = (tr', Ok st')
        /\ deltas tr' = deltas tr ++ VString s1 :: VString s2 :: more).
Proof.
  intros Hb Hbf Hbn Hbp Hbc Hbs Hline Hframe Hnot Hbad Ha Haf Han Hap Hac Has frames.
  assert (Hdrop : exists log,
    (log = [] \/ log = [ConsoleDebug debug_label (trim line)])
    /\ forall following text tr0,
         deltas (tr0 ++ log) = deltas tr0
         /\ processLines onChunk
              {| buffer := line ++ NL :: following; fullText := text |} tr0
            = processLines onChunk
                {| buffer := following; fullText := text |} (tr0 ++ log)).
  { destruct (process_data_malformed_log onChunk (trim line) payload Hbad)
      as (log & Hlog & Hdata).
    exists log. split; [exact Hlog |].
    intros following text tr0. split.
    - rewrite deltas_app. destruct Hlog as [-> | ->]; simpl; apply app_nil_r.
    - rewrite (processLines_data_line onChunk line payload following text tr0
                 Hline Hframe Hnot).
      unfold bind. rewrite Hdata. reflexivity. }
  assert (Hthrough : exists tr2 ft2,
    processLines onChunk {| buffer := frames; fullText := ft |} tr
    = processLines onChunk {| buffer := rest; fullText := ft2 |} tr2
    /\ deltas tr2 = deltas tr ++ [VString s1; VString s2]
    /\ (onChunk (deltas tr) (VString s1) = None ->
        onChunk (deltas tr ++ [VString s1]) (VString s2) = None ->
        ft2 = ft ++ s1 ++ s2)).
  { destruct Hdrop as (log & _ & Hskip).
    destruct (processLines_delivers onChunk before payload1 s1
                (line ++ NL :: after ++ NL :: rest) ft parsed1 tr
                Hb Hbf Hbn Hbp Hbc Hbs) as (log1 & ft1 & E1 & Hlog1 & Hft1).
    set (tr1 := tr ++ [OnChunk (VString s1)] ++ log1) in *.
    destruct (Hskip (after ++ NL :: rest) ft1 tr1) as [Hd Eskip].
    assert (Hd1 : deltas (tr1 ++ log) = deltas tr ++ [VString s1]).
    { rewrite Hd. unfold tr1. rewrite !deltas_app, Hlog1. simpl.
      rewrite ?app_nil_r. reflexivity. }
    destruct (processLines_delivers onChunk after payload2 s2 rest ft1 parsed2
                (tr1 ++ log) Ha Haf Han Hap Hac Has)
      as (log2 & ft2 & E2 & Hlog2 & Hft2).
    exists ((tr1 ++ log) ++ [OnChunk (VString s2)] ++ log2), ft2.
    split; [| split].
    - unfold frames. rewrite E1, Eskip, E2. reflexivity.
    - rewrite deltas_app, Hd1, deltas_app, Hlog2. simpl.
      rewrite <- app_assoc. reflexivity.
    - intros H1 H2. rewrite Hd1 in Hft2.
      rewrite (Hft2 H2), (Hft1 H1), <- app_assoc. reflexivity. }
  split; [exact Hdrop |]. split; [exact Hthrough |].
  destruct Hthrough as (tr2 & ft2 & E & Hd & _).
  destruct (processLines_deltas_extend onChunk
              {| buffer := rest; fullText := ft2 |} tr2)
    as (tr' & st' & more & E' & Hmore).
  exists tr', st', more. split; [rewrite E; exact E' |].
  rewrite Hmore, Hd, <- app_assoc. reflexivity.
Qed.

(** X20. The source is exhausted and the buffer holds one unterminated
    [data: ] frame whose delta is a non-empty string: the flush appends a
    newline and runs [processLines] once more, the delta is handed to the
    callback, and, the callback returning, it ends the returned text. The
    reader is cancelled after that. *)
Theorem unterminated_last_frame_is_flushed
    {P : Platform} (env : Env) (net : Network) (onChunk : Callback)
    (messages : list Message) (model : option jsstring)
    (temperature : option Q) (tr : trace)
    (response : Response) (reads : list ReadResult) (tr1 : trace) (st : Decoder)
    (payload : jsstring) (parsed : value) (s : jsstring) :
  API_KEY env <> [] ->
  net (streaming_request env messages model temperature) = Ok response ->
  ok response = true ->
  body response = Some reads ->
  read_loop onChunk reads {| buffer := []; fullText := [] |}
    (tr ++ [Fetch (streaming_request env messages model temperature)])
    = (tr1, Ok st) ->
  ~ In NL (buffer st) ->
  trim (buffer st) = data_prefix ++ payload ->
  payload <> DONE ->
  JSON_parse payload = Some parsed ->
  delta_content parsed = Ok (VString s) ->
  s <> [] ->
  onChunk (deltas tr1) (VString s) = None ->
  flush onChunk st tr1
    = processLines onChunk
        {| buffer := buffer st ++ [NL]; fullText := fullText st |} tr1
  /\ sendStreamingChatRequest env net onChunk messages model temperature tr
     = (tr1 ++ [OnChunk (VString s)] ++ [Cancel], Ok (fullText st ++ s)).
Proof.
  intros Hkey Hnet Hok Hbody Hloop Hpartial Hframe Hnot Hparse Hdelta Hs Hcb.
  assert (Hflush :
    flush onChunk st tr1
    = processLines onChunk
        {| buffer := buffer st ++ [NL]; fullText := fullText st |} tr1).
  { unfold flush. rewrite Hframe. reflexivity. }
  split; [exact Hflush |].
  rewrite (streaming_with_reader env net onChunk messages model temperature tr
             response reads Hkey Hnet Hok Hbody).
  unfold drain, bind. rewrite Hloop, Hflush.
  rewrite (processLines_data_line onChunk (buffer st) payload [] (fullText st) tr1
             Hpartial Hframe Hnot).
  unfold bind.
  rewrite (process_data_delta onChunk (trim (buffer st)) payload s parsed
             {| buffer := []; fullText := fullText st |} tr1 Hparse Hdelta Hs Hcb).
  rewrite processLines_partial by (simpl; tauto).
  simpl. rewrite <- app_assoc. reflexivity.
Qed.


(** C7. Without a configured API key, [sendChatRequest] and
    [sendStreamingChatRequest] both throw the configuration error, and the
    trace gains the error log only: no request is issued, whatever the
    network would have answered. *)
Theorem missing_credential_is_a_configuration_error
    {P : Platform} (env : Env) (net : Network) (onChunk : Callback)
    (messages : list Message) (model : option jsstring)
    (temperature : option Q) (tr : trace) :
  API_KEY env = [] ->
  let failure := Error msg_no_key in
  let chat := sendChatRequest env net messages model temperature tr in
  let streaming :=
    sendStreamingChatRequest env net onChunk messages model temperature tr in
  chat = (tr ++ [ConsoleError chat_log_label failure], Throw failure)
  /\ streaming = (tr ++ [ConsoleError streaming_log_label failure], Throw failure)
  /\ fetches (fst chat) = fetches tr
  /\ fetches (fst streaming) = fetches tr.
Proof.
  intros Hkey failure chat streaming.
  subst chat streaming.
  rewrite (chat_without_key env net messages model temperature tr Hkey).
  rewrite (streaming_without_key env net onChunk messages model temperature tr Hkey).
  simpl fst. rewrite !fetches_app. simpl. rewrite app_nil_r. auto.
Qed.

(** C8. [generateSuggestions] never throws. When [sendChatRequest]
    returns a string, the result is the first five of the non-empty
    trimmed lines of that string, the lines being its pieces between
    newlines; when [sendChatRequest] throws, or returns something that is
    not a string, the result is the placeholder alone. In every case there
    are at most five suggestions, each non-empty and trimmed. *)
Theorem generateSuggestions_returns_lines_or_placeholder
    {P : Platform} (env : Env) (net : Network) (nodeContent : jsstring)
    (tr : trace) :
  exists tr' suggestions,
    generateSuggestions env net nodeContent tr = (tr', Ok suggestions)
    /\ length suggestions <= 5
    /\ Forall (fun s => s <> [] /\ trim s = s) suggestions
    /\ match sendChatRequest env net (suggestion_messages nodeContent) None None tr with
       | (tr1, Ok (VString text)) =>
         tr' = tr1
         /\ suggestions = firstn 5 (filter nonblank (map trim (split NL text)))
         /\ join [NL] (split NL text) = text
         /\ Forall (fun line => ~ In NL line) (split NL text)
       | (tr1, Ok _) =>
         tr' = tr1 ++ [ConsoleError suggestions_log_label TypeError]
         /\ suggestions = [placeholder]
       | (tr1, Throw e) =>
         tr' = tr1 ++ [ConsoleError suggestions_log_label e]
         /\ suggestions = [placeholder]
       end.
Proof.
  unfold generateSuggestions, split_lines; run_monad.
  destruct (sendChatRequest env net (suggestion_messages nodeContent) None None tr)
    as [tr1 [response|e]].
  - destruct response;
      try (eexists _, _; split; [reflexivity |];
           destruct placeholder_shape as [Hl Hf];
           split; [exact Hl | split; [exact Hf | split; reflexivity]]).
    eexists _, _; split; [reflexivity |].
    destruct (suggestions_shape (split NL s)) as [Hl Hf].
    split; [exact Hl | split; [exact Hf |]].
    split; [reflexivity | split; [reflexivity |]].
    split; [apply join_split | apply split_pieces].
  - eexists _, _; split; [reflexivity |].
    destruct placeholder_shape as [Hl Hf].
    split; [exact Hl | split; [exact Hf | split; reflexivity]].
Qed.

(** C9. Once the reader is acquired, every way the call ends cancels it
    exactly once, after the last callback invocation of the decoding: the
    trace is the request, the events of the decoding, none of them a
    cancellation, the cancellation, and then nothing more when the call
    returns, or only the error log when it throws. *)
Theorem reader_is_cancelled_on_every_exit
    {P : Platform} (env : Env) (net : Network) (onChunk : Callback)
    (messages : list Message) (model : option jsstring)
    (temperature : option Q) (tr : trace)
    (response : Response) (reads : list ReadResult) :
  API_KEY env <> [] ->
  net (streaming_request env messages model temperature) = Ok response ->
  ok response = true ->
  body response = Some reads ->
  let request := streaming_request env messages model temperature in
  let run := sendStreamingChatRequest env net onChunk messages model temperature tr in
  exists mid,
    cancels mid = 0
    /\ ((exists text, run = (tr ++ [Fetch request] ++ mid ++ [Cancel], Ok text))
        \/ (exists e,
              run = (tr ++ [Fetch request] ++ mid ++ [Cancel]
                        ++ [ConsoleError streaming_log_label e],
                     Throw e))).
Proof.
  intros Hkey Hnet Hok Hbody request run. subst run.
  rewrite (streaming_with_reader env net onChunk messages model temperature tr
             response reads Hkey Hnet Hok Hbody).
  fold request.
  destruct (drain_adds_no_cancel onChunk reads (tr ++ [Fetch request]))
    as (mid & r & E & Hc & _).
  rewrite E. exists mid. split; [exact Hc |].
  destruct r as [st|e].
  - left. exists (fullText st). rewrite <- !app_assoc. reflexivity.
  - right. exists e. rewrite <- !app_assoc. reflexivity.
Qed.

(** C10. When [sendChatRequest] returns a string made of white space and
    newlines only (the empty string included), [generateSuggestions]
    returns the empty list, logs nothing, and the result is not the
    placeholder list. *)
Theorem blank_response_gives_no_suggestions
    {P : Platform} (env : Env) (net : Network) (nodeContent : jsstring)
    (tr : trace) (text : jsstring) :
  snd (sendChatRequest env net (suggestion_messages nodeContent) None None tr)
    = Ok (VString text) ->
  forallb is_whitespace text = true ->
  generateSuggestions env net nodeContent tr =
    (fst (sendChatRequest env net (suggestion_messages nodeContent) None None tr),
     Ok [])
  /\ @nil jsstring <> [placeholder].
Proof.
  intros Hsend Hblank.
  split; [| discriminate].
  unfold generateSuggestions, split_lines; run_monad.
  destruct (sendChatRequest env net (suggestion_messages nodeContent) None None tr)
    as [tr1 r].
  simpl in Hsend; subst r. simpl fst.
  assert (Hfirst : forall lines : list jsstring,
             lines = [] -> (tr1, Ok (firstn 5 lines)) = (tr1, @Ok (list jsstring) []))
    by (intros lines ->; reflexivity).
  apply Hfirst. exact (blank_text_has_no_lines text Hblank).
Qed.

(* ================================================================== *)
(** * The service on concrete responses *)
(* ================================================================== *)

Section Scenarios.
#[local] Existing Instance Reference.platform.

(** C1. The scenario of the specification: deltas [Hel] and [lo] and then
    the sentinel give the callback [Hel] then [lo] and the result
    [Hello]. With a callback that throws, the same response still hands
    both deltas to the callback, and the call returns the empty string:
    the returned text is not the concatenation of the deltas passed to the
    callback. *)
Theorem returned_text_misses_deltas_whose_callback_threw :
  let chunks :=
    [Fixtures.frame_Hel ++ [NL];
     Fixtures.frame_lo ++ [NL] ++ Fixtures.frame_sentinel ++ [NL]] in
  let run onChunk :=
    sendStreamingChatRequest Fixtures.with_key
      (Fixtures.serve (Fixtures.streamed chunks)) onChunk [] None None [] in
  deltas (fst (run Fixtures.quiet)) = [VString (lit "Hel"); VString (lit "lo")]
  /\ snd (run Fixtures.quiet) = Ok (lit "Hello")
  /\ deltas (fst (run Fixtures.throwing)) = [VString (lit "Hel"); VString (lit "lo")]
  /\ snd (run Fixtures.throwing) = Ok [].
Proof. vm_compute. repeat split. Qed.

(** C2. A frame that follows the sentinel is still parsed and delivered:
    when it is in the same chunk (the flush after the end of the source
    drains it), when it arrives in a later chunk, and when it is left
    unterminated in the buffer. *)
Theorem frames_after_the_sentinel_are_still_delivered :
  let late := VString (lit "late") in
  let run chunks :=
    sendStreamingChatRequest Fixtures.with_key
      (Fixtures.serve (Fixtures.streamed chunks)) Fixtures.quiet [] None None [] in
  let same_chunk :=
    [Fixtures.frame_sentinel ++ [NL] ++ Fixtures.frame_late ++ [NL]] in
  let later_chunk :=
    [Fixtures.frame_sentinel ++ [NL]; Fixtures.frame_late ++ [NL]] in
  let unterminated :=
    [Fixtures.frame_sentinel ++ [NL] ++ Fixtures.frame_late] in
  (deltas (fst (run same_chunk)) = [late] /\ snd (run same_chunk) = Ok (lit "late"))
  /\ (deltas (fst (run later_chunk)) = [late]
      /\ snd (run later_chunk) = Ok (lit "late"))
  /\ (deltas (fst (run unterminated)) = [late]
      /\ snd (run unterminated) = Ok (lit "late")).
Proof. vm_compute. repeat split. Qed.

(** C5. A last frame that lacks its newline is flushed and handed to the
    callback: with a callback that returns, the callback receives [Hel]
    then [lo] and the result is [Hello]. With a callback that throws when
    it is handed [lo], the flush still hands [lo] to the callback, and the
    call returns [Hel]: the last frame is not in the returned text. *)
Theorem flushed_last_frame_misses_from_the_text_when_the_callback_throws :
  let chunks := [Fixtures.frame_Hel ++ [NL]; Fixtures.frame_lo] in
  let run onChunk :=
    sendStreamingChatRequest Fixtures.with_key
      (Fixtures.serve (Fixtures.streamed chunks)) onChunk [] None None [] in
  deltas (fst (run Fixtures.quiet)) = [VString (lit "Hel"); VString (lit "lo")]
  /\ snd (run Fixtures.quiet) = Ok (lit "Hello")
  /\ deltas (fst (run (throws_on (lit "lo"))))
     = [VString (lit "Hel"); VString (lit "lo")]
  /\ snd (run (throws_on (lit "lo"))) = Ok (lit "Hel").
Proof. vm_compute. repeat split. Qed.

(** C3. A response with status 401 and the body
    [{"error":{"message":"invalid key"}}]: [sendChatRequest] reports the
    message of the body, [sendStreamingChatRequest] reports the status
    line and not the message. A response with status 502 and a body that
    is not JSON: [sendStreamingChatRequest] reports the status line,
    [sendChatRequest] throws the parse failure. *)
Theorem http_error_reporting_on_concrete_responses :
  let unauthorized :=
    Fixtures.answered 401 (lit "Unauthorized")
      (quoted "{'error':{'message':'invalid key'}}") in
  let bad_gateway :=
    Fixtures.answered 502 (lit "Bad Gateway") (lit "<html>Bad Gateway</html>") in
  let chat r :=
    snd (sendChatRequest Fixtures.with_key (Fixtures.serve r) [] None None []) in
  let streaming r :=
    snd (sendStreamingChatRequest Fixtures.with_key (Fixtures.serve r)
           Fixtures.quiet [] None None []) in
  chat unauthorized = Throw (Error (lit "API 请求失败: invalid key"))
  /\ streaming unauthorized = Throw (Error (lit "API 请求失败: 401 Unauthorized"))
  /\ includes (lit "invalid key") (lit "API 请求失败: 401 Unauthorized") = false
  /\ streaming bad_gateway = Throw (Error (lit "API 请求失败: 502 Bad Gateway"))
  /\ chat bad_gateway = Throw SyntaxError.
Proof. vm_compute. repeat split. Qed.

(** The frame of [Hel], a broken frame, the frame of [lo]. *)
Lemma malformed_frame_witness :
  let frames :=
    Fixtures.frame_Hel ++ NL :: Fixtures.frame_broken ++ NL
      :: Fixtures.frame_lo ++ NL :: [] in
  (~ In NL Fixtures.frame_broken)
  /\ trim Fixtures.frame_broken = data_prefix ++ quoted "{'choices':[{'delta':"
  /\ malformed (quoted "{'choices':[{'delta':")
  /\ exists tr2,
       processLines Fixtures.quiet {| buffer := frames; fullText := [] |} []
       = (tr2, Ok {| buffer := []; fullText := lit "Hello" |})
       /\ deltas tr2 = [VString (lit "Hel"); VString (lit "lo")].
Proof.
  cbv zeta.
  assert (Hline : ~ In NL Fixtures.frame_broken)
    by (apply indexOf_None; reflexivity).
  assert (Hframe : trim Fixtures.frame_broken
                   = data_prefix ++ quoted "{'choices':[{'delta':")
    by reflexivity.
  assert (Hnot : quoted "{'choices':[{'delta':" <> DONE)
    by (apply eqb_neq; reflexivity).
  assert (Hbad : malformed (quoted "{'choices':[{'delta':")) by exact I.
  split; [exact Hline |]. split; [exact Hframe |]. split; [exact Hbad |].
  assert (Hb : ~ In NL Fixtures.frame_Hel) by (apply indexOf_None; reflexivity).
  assert (Ha : ~ In NL Fixtures.frame_lo) by (apply indexOf_None; reflexivity).
  assert (Hbn : quoted "{'choices':[{'delta':{'content':'Hel'}}]}" <> DONE)
    by (apply eqb_neq; reflexivity).
  assert (Han : quoted "{'choices':[{'delta':{'content':'lo'}}]}" <> DONE)
    by (apply eqb_neq; reflexivity).
  assert (Hbs : lit "Hel" <> []) by discriminate.
  assert (Has : lit "lo" <> []) by discriminate.
  destruct (@malformed_frame_is_dropped_and_decoding_continues Reference.platform
              Fixtures.quiet
              Fixtures.frame_Hel (quoted "{'choices':[{'delta':{'content':'Hel'}}]}")
              (VObject [(lit "choices",
                         VArray [VObject [(lit "delta",
                                           VObject [(lit "content",
                                                     VString (lit "Hel"))])]])])
              (lit "Hel")
              Fixtures.frame_broken (quoted "{'choices':[{'delta':")
              Fixtures.frame_lo (quoted "{'choices':[{'delta':{'content':'lo'}}]}")
              (VObject [(lit "choices",
                         VArray [VObject [(lit "delta",
                                           VObject [(lit "content",
                                                     VString (lit "lo"))])]])])
              (lit "lo")
              [] [] []
              Hb eq_refl Hbn eq_refl eq_refl Hbs
              Hline Hframe Hnot Hbad
              Ha eq_refl Han eq_refl eq_refl Has)
    as (_ & (tr2 & ft2 & E & Hd & Hft) & _).
  exists tr2. split; [| exact Hd].
  rewrite E, (Hft eq_refl eq_refl).
  apply (processLines_partial Fixtures.quiet
           {| buffer := []; fullText := lit "Hello" |} tr2).
  simpl; tauto.
Defined.

(** A broken frame and a frame without choices between two frames that
    carry deltas: both deltas reach the callback and the result. *)
Example malformed_frames_between_deltas :
  let chunks :=
    [Fixtures.frame_Hel ++ [NL] ++ Fixtures.frame_broken ++ [NL];
     Fixtures.frame_no_choices ++ [NL] ++ Fixtures.frame_lo ++ [NL]] in
  let run :=
    sendStreamingChatRequest Fixtures.with_key
      (Fixtures.serve (Fixtures.streamed chunks)) Fixtures.quiet [] None None [] in
  deltas (fst run) = [VString (lit "Hel"); VString (lit "lo")]
  /\ snd run = Ok (lit "Hello").
Proof. vm_compute. split; reflexivity. Qed.

(** The frame of [lo] arrives last and without a newline. *)
Lemma unterminated_last_frame_witness :
  let reads := [Chunk (Fixtures.frame_Hel ++ [NL]); Chunk Fixtures.frame_lo] in
  let net := Fixtures.serve (Fixtures.streamed
                               [Fixtures.frame_Hel ++ [NL]; Fixtures.frame_lo]) in
  let request := streaming_request Fixtures.with_key [] None None in
  let tr1 := [Fetch request; OnChunk (VString (lit "Hel"))] in
  let st := {| buffer := Fixtures.frame_lo; fullText := lit "Hel" |} in
  read_loop Fixtures.quiet reads {| buffer := []; fullText := [] |} [Fetch request]
    = (tr1, Ok st)
  /\ sendStreamingChatRequest Fixtures.with_key net Fixtures.quiet [] None None []
     = (tr1 ++ [OnChunk (VString (lit "lo"))] ++ [Cancel], Ok (lit "Hello")).
Proof.
  cbv zeta.
  assert (Hloop :
    read_loop Fixtures.quiet
      [Chunk (Fixtures.frame_Hel ++ [NL]); Chunk Fixtures.frame_lo]
      {| buffer := []; fullText := [] |}
      ([] ++ [Fetch (streaming_request Fixtures.with_key [] None None)])
    = ([Fetch (streaming_request Fixtures.with_key [] None None);
        OnChunk (VString (lit "Hel"))],
       Ok {| buffer := Fixtures.frame_lo; fullText := lit "Hel" |}))
    by (vm_compute; reflexivity).
  split; [exact Hloop |].
  refine (proj2 (@unterminated_last_frame_is_flushed Reference.platform
           Fixtures.with_key
           (Fixtures.serve
              (Fixtures.streamed [Fixtures.frame_Hel ++ [NL]; Fixtures.frame_lo]))
           Fixtures.quiet [] None None []
           (Fixtures.streamed [Fixtures.frame_Hel ++ [NL]; Fixtures.frame_lo])
           [Chunk (Fixtures.frame_Hel ++ [NL]); Chunk Fixtures.frame_lo]
           [Fetch (streaming_request Fixtures.with_key [] None None);
            OnChunk (VString (lit "Hel"))]
           {| buffer := Fixtures.frame_lo; fullText := lit "Hel" |}
           (quoted "{'choices':[{'delta':{'content':'lo'}}]}")
           (VObject [(lit "choices",
                      VArray [VObject [(lit "delta",
                                        VObject [(lit "content",
                                                  VString (lit "lo"))])]])])
           (lit "lo") _ eq_refl eq_refl eq_refl Hloop _ eq_refl _ _ eq_refl _
           eq_refl)).
  - discriminate.
  - apply indexOf_None; reflexivity.
  - apply eqb_neq; reflexivity.
  - vm_compute; reflexivity.
  - discriminate.
Defined.


(** No key in the environment, and a network that must not be reached. *)
Lemma missing_credential_witness :
  API_KEY Fixtures.without_key = []
  /\ sendChatRequest Fixtures.without_key Fixtures.unreachable [] None None []
     = ([ConsoleError chat_log_label (Error msg_no_key)], Throw (Error msg_no_key))
  /\ sendStreamingChatRequest Fixtures.without_key Fixtures.unreachable
       Fixtures.quiet [] None None []
     = ([ConsoleError streaming_log_label (Error msg_no_key)],
        Throw (Error msg_no_key)).
Proof.
  split; [reflexivity |].
  destruct (@missing_credential_is_a_configuration_error Reference.platform
              Fixtures.without_key Fixtures.unreachable Fixtures.quiet
              [] None None [] eq_refl) as (Hchat & Hstream & _).
  split; [exact Hchat | exact Hstream].
Defined.

(** A read that fails after the first chunk. *)
Lemma reader_is_cancelled_witness :
  let reset := PlatformError (lit "connection reset") in
  let response :=
    {| status := 200; statusText := lit "OK";
       body := Some [Chunk (Fixtures.frame_Hel ++ [NL]); ReadError reset] |} in
  let request := streaming_request Fixtures.with_key [] None None in
  let run :=
    sendStreamingChatRequest Fixtures.with_key (Fixtures.serve response)
      Fixtures.quiet [] None None [] in
  API_KEY Fixtures.with_key <> []
  /\ ok response = true
  /\ exists mid,
       cancels mid = 0
       /\ ((exists text, run = ([] ++ [Fetch request] ++ mid ++ [Cancel], Ok text))
           \/ (exists e,
                 run = ([] ++ [Fetch request] ++ mid ++ [Cancel]
                           ++ [ConsoleError streaming_log_label e],
                        Throw e))).
Proof.
  cbv zeta.
  split; [discriminate |].
  split; [reflexivity |].
  apply (@reader_is_cancelled_on_every_exit Reference.platform
           Fixtures.with_key _ Fixtures.quiet [] None None []
           {| status := 200; statusText := lit "OK";
              body := Some [Chunk (Fixtures.frame_Hel ++ [NL]);
                            ReadError (PlatformError (lit "connection reset"))] |}
           [Chunk (Fixtures.frame_Hel ++ [NL]);
            ReadError (PlatformError (lit "connection reset"))]).
  - discriminate.
  - reflexivity.
  - reflexivity.
  - reflexivity.
Defined.

(** A read that fails after one delta: the delta was delivered, the
    reader is cancelled, and the failure reaches the caller. *)
Example failed_read_cancels_the_reader :
  let reset := PlatformError (lit "connection reset") in
  let response :=
    {| status := 200; statusText := lit "OK";
       body := Some [Chunk (Fixtures.frame_Hel ++ [NL]); ReadError reset] |} in
  sendStreamingChatRequest Fixtures.with_key (Fixtures.serve response)
    Fixtures.quiet [] None None []
  = ([Fetch (streaming_request Fixtures.with_key [] None None);
      OnChunk (VString (lit "Hel"));
      Cancel;
      ConsoleError streaming_log_label reset],
     Throw reset).
Proof. vm_compute. reflexivity. Qed.

(** The scenario of the specification: without a key,
    [generateSuggestions] returns the placeholder alone, and no request is
    issued. *)
Example suggestions_without_key :
  generateSuggestions Fixtures.without_key Fixtures.unreachable (lit "tree") []
  = ([ConsoleError chat_log_label (Error msg_no_key);
      ConsoleError suggestions_log_label (Error msg_no_key)],
     Ok [lit "无法生成建议，请稍后再试"]).
Proof. vm_compute. reflexivity. Qed.

(** Seven lines, some blank: the first five that are not. *)
Example suggestions_from_lines :
  let net :=
    Fixtures.serve
      (Fixtures.answered 200 (lit "OK")
         (quoted "{'choices':[{'message':{'content':' a \n\n b\nc\nd\ne\nf'}}]}")) in
  snd (generateSuggestions Fixtures.with_key net (lit "tree") [])
  = Ok [lit "a"; lit "b"; lit "c"; lit "d"; lit "e"].
Proof. vm_compute. reflexivity. Qed.

(** A response without choices: the empty string, and no suggestion. *)
Example no_choice_gives_the_empty_string :
  let net :=
    Fixtures.serve (Fixtures.answered 200 (lit "OK") (quoted "{'choices':[]}")) in
  snd (sendChatRequest Fixtures.with_key net [] None None []) = Ok (VString [])
  /\ snd (generateSuggestions Fixtures.with_key net (lit "tree") []) = Ok [].
Proof. vm_compute. split; reflexivity. Qed.

(** A response whose content is blanks, a tab and newlines. *)
Lemma blank_response_witness :
  let net :=
    Fixtures.serve
      (Fixtures.answered 200 (lit "OK")
         (quoted "{'choices':[{'message':{'content':' \n\t \n'}}]}")) in
  let text := [32; 10; 9; 32; 10]%N in
  snd (sendChatRequest Fixtures.with_key net
         (suggestion_messages (lit "tree")) None None []) = Ok (VString text)
  /\ forallb is_whitespace text = true
  /\ snd (generateSuggestions Fixtures.with_key net (lit "tree") []) = Ok [].
Proof.
  cbv zeta.
  assert (Hsend :
    snd (sendChatRequest Fixtures.with_key
           (Fixtures.serve
              (Fixtures.answered 200 (lit "OK")
                 (quoted "{'choices':[{'message':{'content':' \n\t \n'}}]}")))
           (suggestion_messages (lit "tree")) None None [])
    = Ok (VString [32; 10; 9; 32; 10]%N)) by (vm_compute; reflexivity).
  split; [exact Hsend |].
  split; [reflexivity |].
  destruct (@blank_response_gives_no_suggestions Reference.platform
              Fixtures.with_key _ (lit "tree") [] _ Hsend eq_refl) as [Hrun _].
  rewrite Hrun; reflexivity.
Defined.

End Scenarios.

(* ================================================================== *)
(** * More facts about the dispatcher *)
(* ================================================================== *)

Section RequestFacts.
Context {P : Platform}.
Variable env : Env.
Variable net : Network.

(** The success path: a 2xx response whose body parses. *)
Lemma chat_success_path messages model temperature tr response reads text data :
  API_KEY env <> [] ->
  net (chat_request env messages model temperature) = Ok response ->
  ok response = true ->
  body response = Some reads ->
  body_text reads = Ok text ->
  JSON_parse text = Some data ->
  sendChatRequest env net messages model temperature tr =
  match message_content data with
  | Ok c =>
    (tr ++ [Fetch (chat_request env messages model temperature)],
     Ok (or_value c (VString [])))
  | Throw e =>
    (tr ++ [Fetch (chat_request env messages model temperature)]
        ++ [ConsoleError chat_log_label e],
     Throw e)
  end.
Proof.
  intros Hkey Hnet Hok Hbody Htext Hparse.
  unfold sendChatRequest, message_content.
  rewrite (isEmpty_false _ Hkey).
  unfold response_json; run_monad.
  rewrite Hnet, Hok, Hbody, Htext. cbn [negb]. cbv beta iota.
  rewrite Hparse.
  destruct (get data (lit "choices")) as [choices|e];
    [| rewrite <- app_assoc; reflexivity].
  destruct (get0 choices) as [first|e]; [| rewrite <- app_assoc; reflexivity].
  destruct (nullish first); [reflexivity |].
  destruct (get first (lit "message")) as [message|e];
    [| rewrite <- app_assoc; reflexivity].
  destruct (get message (lit "content")) as [c|e];
    [reflexivity | rewrite <- app_assoc; reflexivity].
Qed.

(** The error path: a response outside 2xx whose body parses. *)
Lemma chat_error_path messages model temperature tr response reads text errorData :
  API_KEY env <> [] ->
  net (chat_request env messages model temperature) = Ok response ->
  ok response = false ->
  body response = Some reads ->
  body_text reads = Ok text ->
  JSON_parse text = Some errorData ->
  exists e,
    sendChatRequest env net messages model temperature tr =
    (tr ++ [Fetch (chat_request env messages model temperature)]
        ++ [ConsoleError chat_log_label e],
     Throw e)
    /\ match api_error_message errorData response [] with
       | (_, Ok message) => e = Error message
       | (_, Throw e') => e = e'
       end.
Proof.
  intros Hkey Hnet Hok Hbody Htext Hparse.
  unfold sendChatRequest.
  rewrite (isEmpty_false _ Hkey).
  unfold response_json, api_error_message; run_monad.
  rewrite Hnet, Hok, Hbody, Htext. cbn [negb]. cbv beta iota.
  rewrite Hparse.
  destruct (get errorData (lit "error")) as [error|e];
    [| exists e; rewrite <- app_assoc; split; reflexivity].
  destruct (opt_get error (lit "message")) as [message|e];
    [| exists e; rewrite <- app_assoc; split; reflexivity].
  destruct (ToString _) as [detail|];
    eexists; rewrite <- app_assoc; split; reflexivity.
Qed.

End RequestFacts.

(* ================================================================== *)
(** * More facts about lines *)
(* ================================================================== *)

Lemma split_no_separator (c : N) (t : jsstring) : ~ In c t -> split c t = [t].
Proof.
  induction t as [|x t IH]; simpl; intros H; [reflexivity |].
  destruct (N.eqb_spec x c) as [->|_]; [exfalso; apply H; auto |].
  rewrite IH by (intros Hin; apply H; auto). reflexivity.
Qed.

Lemma split_first_line (c : N) (l r : jsstring) :
  ~ In c l -> split c (l ++ c :: r) = l :: split c r.
Proof.
  induction l as [|x l IH]; simpl; intros H.
  - rewrite N.eqb_refl. reflexivity.
  - destruct (N.eqb_spec x c) as [->|_]; [exfalso; apply H; auto |].
    rewrite IH by (intros Hin; apply H; auto). reflexivity.
Qed.

Lemma complete_lines_partial (t : jsstring) : ~ In NL t -> complete_lines t = [].
Proof. intros H. unfold complete_lines. rewrite split_no_separator by exact H. reflexivity. Qed.

Lemma complete_lines_first (l r : jsstring) :
  ~ In NL l -> complete_lines (l ++ NL :: r) = l :: complete_lines r.
Proof.
  intros H. unfold complete_lines. rewrite split_first_line by exact H.
  pose proof (split_not_nil NL r) as Hnn.
  destruct (split NL r); [contradiction | reflexivity].
Qed.

(** A text has no newline, or a first line. *)
Lemma first_line (t : jsstring) :
  ~ In NL t
  \/ exists l r, t = l ++ NL :: r /\ ~ In NL l /\ length r < length t.
Proof.
  destruct (indexOf NL t) as [i|] eqn:Hi.
  - right. destruct (indexOf_Some _ _ _ Hi) as (Hs & Hn & Hlt).
    exists (firstn i t), (skipn (i + 1) t).
    split; [exact Hs | split; [exact Hn |]].
    rewrite length_skipn. lia.
  - left. apply indexOf_None; exact Hi.
Qed.

Lemma has_sentinel_first (l r : jsstring) :
  ~ In NL l -> has_sentinel (l ++ NL :: r) = is_sentinel l || has_sentinel r.
Proof.
  intros H. unfold has_sentinel. rewrite complete_lines_first by exact H.
  reflexivity.
Qed.

(** The complete lines of a text stay complete lines when text follows:
    no sentinel in the whole, none in the beginning. *)
Lemma has_sentinel_prefix (t u : jsstring) :
  has_sentinel (t ++ u) = false -> has_sentinel t = false.
Proof.
  remember (length t) as n eqn:Hn.
  assert (Hle : length t <= n) by lia. clear Hn.
  revert t Hle; induction n as [|n IH]; intros t Hle Hwhole.
  - destruct t; [reflexivity | simpl in Hle; lia].
  - destruct (first_line t) as [Hnone | (l & r & -> & Hl & Hlt)].
    + unfold has_sentinel. rewrite complete_lines_partial by exact Hnone.
      reflexivity.
    + rewrite <- app_assoc in Hwhole. simpl in Hwhole.
      rewrite has_sentinel_first in Hwhole by exact Hl.
      apply orb_false_iff in Hwhole as [Hline Hrest].
      rewrite has_sentinel_first by exact Hl.
      rewrite Hline. simpl. apply IH; [lia | exact Hrest].
Qed.

Lemma trimStart_app_whitespace (l : jsstring) (c : N) :
  is_whitespace c = true ->
  trimStart (l ++ [c]) = match trimStart l with
                         | [] => []
                         | _ :: _ => trimStart l ++ [c]
                         end.
Proof.
  intros Hc. induction l as [|x l IH]; simpl.
  - rewrite Hc. reflexivity.
  - destruct (is_whitespace x); [exact IH | reflexivity].
Qed.

(** White space at the end of a line is trimmed away. *)
Lemma trim_app_whitespace (l : jsstring) (c : N) :
  is_whitespace c = true -> trim (l ++ [c]) = trim l.
Proof.
  intros Hc. unfold trim, trimEnd.
  rewrite (trimStart_app_whitespace l c Hc).
  destruct (trimStart l) as [|x t] eqn:E; [reflexivity |].
  rewrite rev_app_distr. simpl. rewrite Hc. reflexivity.
Qed.

Lemma is_sentinel_false (l : jsstring) :
  is_sentinel l = false -> trim l <> data_prefix ++ DONE.
Proof. unfold is_sentinel. apply eqb_neq. Qed.

(* ================================================================== *)
(** * Facts about chunk boundaries *)
(* ================================================================== *)

Section ChunkFacts.
Context {P : Platform}.
Variable onChunk : Callback.

(** Handling a payload neither reads nor changes the buffer. *)
Lemma process_data_buffer_irrelevant (line data b1 b2 ft : jsstring) (tr : trace) :
  exists tr' ft',
    process_data onChunk line data {| buffer := b1; fullText := ft |} tr
    = (tr', Ok {| buffer := b1; fullText := ft' |})
    /\ process_data onChunk line data {| buffer := b2; fullText := ft |} tr
       = (tr', Ok {| buffer := b2; fullText := ft' |}).
Proof.
  unfold process_data; run_monad.
  destruct (JSON_parse data) as [parsed|]; [| eexists _, _; split; reflexivity].
  destruct (delta_content parsed) as [c|e]; [| eexists _, _; split; reflexivity].
  destruct (ToBoolean c); [| eexists _, _; split; reflexivity].
  destruct (onChunk (deltas tr) c); [eexists _, _; split; reflexivity |].
  destruct (ToString c); eexists _, _; split; reflexivity.
Qed.

(** A pass over a text and then a pass over what it left followed by
    more text, or one pass over the whole: the same, unless a complete
    line is the sentinel. *)
Lemma two_passes_are_one (n : nat) :
  forall (x y ft : jsstring) (tr : trace),
    length x <= n ->
    has_sentinel (x ++ y) = false ->
    (st1 <- processLines onChunk {| buffer := x; fullText := ft |} ;;
     processLines onChunk
       {| buffer := buffer st1 ++ y; fullText := fullText st1 |}) tr
    = processLines onChunk {| buffer := x ++ y; fullText := ft |} tr.
Proof.
  induction n as [|n IH]; intros x y ft tr Hlen Hnone.
  - destruct x; [| simpl in Hlen; lia].
    unfold bind. rewrite processLines_partial by (simpl; tauto). reflexivity.
  - destruct (first_line x) as [Hpartial | (l & r & -> & Hl & Hlt)].
    + unfold bind. rewrite processLines_partial by exact Hpartial. reflexivity.
    + rewrite length_app in Hlen. simpl in Hlen.
      rewrite <- app_assoc in *. simpl in Hnone |- *.
      rewrite has_sentinel_first in Hnone by exact Hl.
      apply orb_false_iff in Hnone as [Hline Hrest].
      destruct (startsWith data_prefix (trim l)) eqn:Hsw.
      * pose proof (startsWith_split _ _ Hsw) as Hframe.
        change (length data_prefix) with 6 in Hframe.
        assert (Hnot : slice_from 6 (trim l) <> DONE).
        { intros Hd. apply is_sentinel_false in Hline. apply Hline.
          rewrite Hframe, Hd. reflexivity. }
        unfold bind in IH |- *.
        rewrite (processLines_data_line onChunk l _ r ft tr Hl Hframe Hnot).
        rewrite (processLines_data_line onChunk l _ (r ++ y) ft tr Hl Hframe Hnot).
        unfold bind.
        destruct (process_data_buffer_irrelevant (trim l) (slice_from 6 (trim l))
                    r (r ++ y) ft tr) as (tr' & ft' & E1 & E2).
        rewrite E1, E2.
        apply (IH r y ft' tr'); [lia | exact Hrest].
      * unfold bind in IH |- *.
        rewrite (processLines_other_line onChunk l r ft tr Hl Hsw).
        rewrite (processLines_other_line onChunk l (r ++ y) ft tr Hl Hsw).
        apply (IH r y ft tr); [lia | exact Hrest].
Qed.

(** Two chunks in a row, or their concatenation in one chunk. *)
Lemma read_loop_two_chunks (a b : jsstring) (reads : list ReadResult)
      (st : Decoder) (tr : trace) :
  has_sentinel (buffer st ++ a ++ b) = false ->
  read_loop onChunk (Chunk a :: Chunk b :: reads) st tr
  = read_loop onChunk (Chunk (a ++ b) :: reads) st tr.
Proof.
  intros Hnone. cbn [read_loop]. rewrite app_assoc in Hnone.
  pose proof (two_passes_are_one (length (buffer st ++ a)) (buffer st ++ a) b
                (fullText st) tr (le_n _) Hnone) as Hone.
  unfold bind in *. rewrite (app_assoc (buffer st) a b), <- Hone.
  destruct (processLines onChunk _ tr) as [t [s|e]]; reflexivity.
Qed.

(** A source delivered in several chunks, or all at once. *)
Lemma read_loop_chunks (cs : list jsstring) :
  forall (c : jsstring) (st : Decoder) (tr : trace),
    has_sentinel (buffer st ++ concat (c :: cs)) = false ->
    read_loop onChunk (map Chunk (c :: cs)) st tr
    = read_loop onChunk [Chunk (concat (c :: cs))] st tr.
Proof.
  induction cs as [|c2 cs IH]; intros c st tr Hnone.
  - simpl. rewrite app_nil_r. reflexivity.
  - cbn [map]. rewrite read_loop_two_chunks.
    + change (Chunk (c ++ c2) :: map Chunk cs)
        with (map Chunk ((c ++ c2) :: cs)).
      transitivity (read_loop onChunk [Chunk (concat ((c ++ c2) :: cs))] st tr).
      * apply IH. simpl in *. rewrite <- app_assoc. exact Hnone.
      * simpl. rewrite <- app_assoc. reflexivity.
    + apply (has_sentinel_prefix _ (concat cs)).
      simpl in Hnone. rewrite <- !app_assoc. exact Hnone.
Qed.

Lemma drain_chunks (chunks : list jsstring) (tr : trace) :
  has_sentinel (concat chunks) = false ->
  drain onChunk (map Chunk chunks) tr = drain onChunk [Chunk (concat chunks)] tr.
Proof.
  intros Hnone. unfold drain, bind.
  destruct chunks as [|c cs].
  - cbn [map concat read_loop]. unfold bind, ret.
    rewrite processLines_partial by (simpl; tauto). reflexivity.
  - rewrite read_loop_chunks by exact Hnone. reflexivity.
Qed.

(** The read loop over chunks alone always ends, by return. *)
Lemma read_loop_chunks_return (chunks : list jsstring) :
  forall (st : Decoder) (tr : trace),
    exists tr' st', read_loop onChunk (map Chunk chunks) st tr = (tr', Ok st').
Proof.
  induction chunks as [|c cs IH]; intros st tr; simpl.
  - eexists _, _; reflexivity.
  - unfold bind.
    destruct (processLines_invariant onChunk (fun _ _ => True)
                (fun _ _ _ _ _ _ _ _ => I)
                {| buffer := buffer st ++ c; fullText := fullText st |} tr I)
      as (tr1 & st1 & E & _).
    rewrite E. apply IH.
Qed.

(** A read that fails ends the loop with its error; what the source
    would have delivered after it plays no part. *)
Lemma read_loop_failed_read (chunks : list jsstring) (e : exn)
      (rest : list ReadResult) :
  forall (st : Decoder) (tr : trace),
    exists tr' st',
      read_loop onChunk (map Chunk chunks) st tr = (tr', Ok st')
      /\ read_loop onChunk (map Chunk chunks ++ ReadError e :: rest) st tr
         = (tr', Throw e).
Proof.
  induction chunks as [|c cs IH]; intros st tr; simpl.
  - eexists _, _; split; reflexivity.
  - unfold bind.
    destruct (processLines onChunk _ tr) as [tr1 [st1|e1]] eqn:E.
    + apply IH.
    + destruct (processLines_invariant onChunk (fun _ _ => True)
                  (fun _ _ _ _ _ _ _ _ => I)
                  {| buffer := buffer st ++ c; fullText := fullText st |} tr I)
        as (tr2 & st2 & E2 & _).
      rewrite E2 in E. discriminate.
Qed.

End ChunkFacts.

(* ================================================================== *)
(** * More facts about the streaming call *)
(* ================================================================== *)

Section OutcomeFacts.
Context {P : Platform}.
Variable env : Env.
Variable net : Network.
Variable onChunk : Callback.

Lemma streaming_fetch_rejected messages model temperature tr e :
  API_KEY env <> [] ->
  net (streaming_request env messages model temperature) = Throw e ->
  sendStreamingChatRequest env net onChunk messages model temperature tr =
  (tr ++ [Fetch (streaming_request env messages model temperature)]
      ++ [ConsoleError streaming_log_label e],
   Throw e).
Proof.
  intros Hkey Hnet. unfold sendStreamingChatRequest.
  rewrite (isEmpty_false _ Hkey). run_monad. rewrite Hnet.
  rewrite <- app_assoc. reflexivity.
Qed.

End OutcomeFacts.

(** Lines that trim to the same text are handled alike. *)
Lemma processLines_same_trim `{Platform} (onChunk : Callback)
      (l1 l2 rest ft : jsstring) (tr : trace) :
  ~ In NL l1 -> ~ In NL l2 -> trim l1 = trim l2 ->
  processLines onChunk {| buffer := l1 ++ NL :: rest; fullText := ft |} tr
  = processLines onChunk {| buffer := l2 ++ NL :: rest; fullText := ft |} tr.
Proof.
  intros H1 H2 Ht.
  rewrite !processLines_unfold. simpl buffer.
  rewrite (indexOf_app NL l1 rest H1), (indexOf_app NL l2 rest H2).
  cbv zeta. rewrite !slice_to_app, !slice_from_app, Ht. reflexivity.
Qed.

(* ================================================================== *)
(** * Further properties of the stream decoder *)
(* ================================================================== *)

(** X1. How the source cuts its text into chunks does not matter: a
    response delivered in several chunks and the same text delivered in
    one chunk give the same events and the same result, as long as no
    complete line of the text is the sentinel. *)
Theorem chunk_boundaries_do_not_matter
    {P : Platform} (env : Env) (onChunk : Callback)
    (messages : list Message) (model : option jsstring)
    (temperature : option Q) (tr : trace)
    (code : N) (reason : jsstring) (chunks : list jsstring) :
  has_sentinel (concat chunks) = false ->
  let respond reads : Network :=
    fun _ => Ok {| status := code; statusText := reason; body := Some reads |} in
  sendStreamingChatRequest env (respond (map Chunk chunks)) onChunk
    messages model temperature tr
  = sendStreamingChatRequest env (respond [Chunk (concat chunks)]) onChunk
      messages model temperature tr.
Proof.
  intros Hnone respond.
  destruct (API_KEY env) as [|k ks] eqn:Hkey.
  { rewrite !streaming_without_key by exact Hkey. reflexivity. }
  assert (Hne : API_KEY env <> []) by (rewrite Hkey; discriminate).
  set (r1 := {| status := code; statusText := reason;
                body := Some (map Chunk chunks) |}).
  set (r2 := {| status := code; statusText := reason;
                body := Some [Chunk (concat chunks)] |}).
  destruct (ok r1) eqn:Hok.
  - rewrite (streaming_with_reader env (respond (map Chunk chunks)) onChunk
               messages model temperature tr r1 (map Chunk chunks)
               Hne eq_refl Hok eq_refl).
    rewrite (streaming_with_reader env (respond [Chunk (concat chunks)]) onChunk
               messages model temperature tr r2 [Chunk (concat chunks)]
               Hne eq_refl Hok eq_refl).
    rewrite (drain_chunks onChunk chunks _ Hnone). reflexivity.
  - pose proof (streaming_http_error env (respond (map Chunk chunks)) onChunk
                  messages model temperature tr r1 Hne eq_refl Hok) as H1.
    pose proof (streaming_http_error env (respond [Chunk (concat chunks)]) onChunk
                  messages model temperature tr r2 Hne eq_refl Hok) as H2.
    cbv zeta in H1, H2. rewrite H1, H2. reflexivity.
Qed.


(** X3. A line that does not start with [data: ] once trimmed (an empty
    line, a comment, an [event:] field, a [data:] field without the
    space) is dropped without any event: the pass goes on with the rest
    of the buffer. *)
Theorem lines_without_the_data_prefix_are_ignored
    {P : Platform} (onChunk : Callback) (line rest ft : jsstring) (tr : trace) :
  ~ In NL line ->
  startsWith data_prefix (trim line) = false ->
  processLines onChunk {| buffer := line ++ NL :: rest; fullText := ft |} tr
  = processLines onChunk {| buffer := rest; fullText := ft |} tr.
Proof.
  intros Hline Hother.
  rewrite processLines_unfold. simpl buffer.
  rewrite (indexOf_app NL line rest Hline).
  cbv zeta. rewrite slice_to_app, slice_from_app, Hother.
  rewrite orb_true_r. reflexivity.
Qed.

(** X4. A carriage return before the newline changes nothing: a line
    ended by CR LF is handled as the line ended by LF alone. *)
Theorem carriage_return_before_the_newline_is_ignored
    {P : Platform} (onChunk : Callback) (line rest ft : jsstring) (tr : trace) :
  ~ In NL line ->
  processLines onChunk
    {| buffer := line ++ [13%N] ++ NL :: rest; fullText := ft |} tr
  = processLines onChunk {| buffer := line ++ NL :: rest; fullText := ft |} tr.
Proof.
  intros Hline.
  rewrite (app_assoc line [13%N] (NL :: rest)).
  apply processLines_same_trim.
  - intros Hin. apply in_app_or in Hin as [Hin | [Hin | []]];
      [exact (Hline Hin) | discriminate].
  - exact Hline.
  - apply trim_app_whitespace. reflexivity.
Qed.

(** X5. The callback is only ever handed truthy deltas (never an empty
    string, [null] or [undefined]); a streaming call with a key issues
    exactly one request and cancels the reader at most once. *)
Theorem callback_receives_truthy_deltas_only
    {P : Platform} (env : Env) (net : Network) (onChunk : Callback)
    (messages : list Message) (model : option jsstring)
    (temperature : option Q) (tr : trace) :
  API_KEY env <> [] ->
  exists added r,
    sendStreamingChatRequest env net onChunk messages model temperature tr
    = (tr ++ [Fetch (streaming_request env messages model temperature)] ++ added, r)
    /\ fetches added = []
    /\ Forall (fun v => ToBoolean v = true) (deltas added)
    /\ cancels added <= 1.
Proof.
  intros Hkey.
  destruct (net (streaming_request env messages model temperature))
    as [response|e] eqn:Hnet.
  2:{ rewrite (streaming_fetch_rejected env net onChunk messages model temperature tr e
                 Hkey Hnet).
      eexists _, _; split; [reflexivity |]. simpl. auto. }
  destruct (ok response) eqn:Hok.
  2:{ pose proof (streaming_http_error env net onChunk messages model temperature
                    tr response Hkey Hnet Hok) as Hfail.
      cbv zeta in Hfail. rewrite Hfail.
      eexists _, _; split; [reflexivity |]. simpl. auto. }
  destruct (body response) as [reads|] eqn:Hbody.
  2:{ unfold sendStreamingChatRequest.
      rewrite (isEmpty_false _ Hkey). run_monad. rewrite Hnet, Hok, Hbody.
      cbn [negb]. cbv beta iota.
      eexists _, _; split; [rewrite <- app_assoc; reflexivity |]. simpl. auto. }
  rewrite (streaming_with_reader env net onChunk messages model temperature tr
             response reads Hkey Hnet Hok Hbody).
  set (tr0 := tr ++ [Fetch (streaming_request env messages model temperature)]).
  destruct (drain_invariant onChunk
              (fun _ tr' =>
                 exists mid, tr' = tr0 ++ mid /\ fetches mid = []
                             /\ Forall (fun v => ToBoolean v = true) (deltas mid)
                             /\ cancels mid = 0)) with (reads := reads) (tr := tr0)
    as (tr' & r & E & Hr).
  - intros line data st t t' st' (mid & -> & Hf & Hd & Hc) O.
    destruct O as [| | | parsed c text Hp Hcc Hb Hcb Hs | parsed c e Hp Hcc Hb Hcb
                   | parsed c Hp Hcc Hb Hcb Hs];
      try (exists mid; auto; fail);
      rewrite <- app_assoc; eexists; (split; [reflexivity |]);
      rewrite fetches_app, deltas_app, cancels_app, Hf, Hc; simpl;
      repeat split; auto;
      rewrite ?app_nil_r; try (apply Forall_app; split); auto.
  - exists []; rewrite app_nil_r; simpl; auto.
  - assert (Hmid : exists mid, tr' = tr0 ++ mid /\ fetches mid = []
                               /\ Forall (fun v => ToBoolean v = true) (deltas mid)
                               /\ cancels mid = 0).
    { destruct r; [exact Hr | destruct Hr as [_ Hr]; exact Hr]. }
    destruct Hmid as (mid & -> & Hf & Hd & Hc).
    rewrite E. subst tr0.
    destruct r as [st|e].
    + exists (mid ++ [Cancel]), (Ok (fullText st)).
      rewrite <- !app_assoc. split; [reflexivity |].
      rewrite fetches_app, deltas_app, cancels_app, Hf, Hc. simpl.
      rewrite app_nil_r. auto.
    + exists (mid ++ [Cancel] ++ [ConsoleError streaming_log_label e]), (Throw e).
      rewrite <- !app_assoc. split; [reflexivity |].
      rewrite fetches_app, deltas_app, cancels_app, Hf, Hc. simpl.
      rewrite app_nil_r. auto.
Qed.

(** X6. A read that fails ends the streaming call with the error of the
    read, unchanged: the events are those of the chunks read before it,
    then the cancellation and the error log; the text left in the buffer
    is not flushed and what the source holds after the failure is never
    read. *)
Theorem failed_read_reaches_the_caller
    {P : Platform} (env : Env) (net : Network) (onChunk : Callback)
    (messages : list Message) (model : option jsstring)
    (temperature : option Q) (tr : trace)
    (response : Response) (chunks : list jsstring) (e : exn)
    (rest : list ReadResult) :
  API_KEY env <> [] ->
  net (streaming_request env messages model temperature) = Ok response ->
  ok response = true ->
  body response = Some (map Chunk chunks ++ ReadError e :: rest) ->
  exists tr1 st1,
    read_loop onChunk (map Chunk chunks) {| buffer := []; fullText := [] |}
      (tr ++ [Fetch (streaming_request env messages model temperature)])
    = (tr1, Ok st1)
    /\ sendStreamingChatRequest env net onChunk messages model temperature tr
       = (tr1 ++ [Cancel] ++ [ConsoleError streaming_log_label e], Throw e).
Proof.
  intros Hkey Hnet Hok Hbody.
  destruct (read_loop_failed_read onChunk chunks e rest
              {| buffer := []; fullText := [] |}
              (tr ++ [Fetch (streaming_request env messages model temperature)]))
    as (tr1 & st1 & Hread & Hfail).
  exists tr1, st1. split; [exact Hread |].
  rewrite (streaming_with_reader env net onChunk messages model temperature tr
             response _ Hkey Hnet Hok Hbody).
  unfold drain, bind. rewrite Hfail. reflexivity.
Qed.

(** X7. A 2xx response without a body cannot be streamed: the call
    throws the error of the unreadable body, the callback is not invoked
    and no reader is cancelled. *)
Theorem unreadable_body_is_an_error
    {P : Platform} (env : Env) (net : Network) (onChunk : Callback)
    (messages : list Message) (model : option jsstring)
    (temperature : option Q) (tr : trace) (response : Response) :
  API_KEY env <> [] ->
  net (streaming_request env messages model temperature) = Ok response ->
  ok response = true ->
  body response = None ->
  sendStreamingChatRequest env net onChunk messages model temperature tr =
  (tr ++ [Fetch (streaming_request env messages model temperature)]
      ++ [ConsoleError streaming_log_label (Error msg_unreadable)],
   Throw (Error msg_unreadable)).
Proof.
  intros Hkey Hnet Hok Hbody. unfold sendStreamingChatRequest.
  rewrite (isEmpty_false _ Hkey). run_monad. rewrite Hnet, Hok, Hbody.
  cbn [negb]. cbv beta iota. rewrite <- app_assoc. reflexivity.
Qed.

(** X8. A response outside 2xx whose body cannot be read or is not
    JSON: [sendStreamingChatRequest] throws the error made of the status
    code and the status text instead of the failure of the parse; the
    callback is not invoked and no reader is acquired. *)
Theorem streaming_error_falls_back_to_the_status_line
    {P : Platform} (env : Env) (net : Network) (onChunk : Callback)
    (messages : list Message) (model : option jsstring)
    (temperature : option Q) (tr : trace) (response : Response)
    (reads : list ReadResult) :
  API_KEY env <> [] ->
  net (streaming_request env messages model temperature) = Ok response ->
  ok response = false ->
  body response = Some reads ->
  match body_text reads with
  | Ok text => JSON_parse text = None
  | Throw _ => True
  end ->
  sendStreamingChatRequest env net onChunk messages model temperature tr =
  (tr ++ [Fetch (streaming_request env messages model temperature)]
      ++ [ConsoleError streaming_log_label
            (Error (msg_failed ++ of_N (status response) ++ lit " "
                    ++ statusText response))],
   Throw (Error (msg_failed ++ of_N (status response) ++ lit " "
                 ++ statusText response))).
Proof.
  intros Hkey Hnet Hok _ _.
  exact (streaming_http_error env net onChunk messages model temperature tr
           response Hkey Hnet Hok).
Qed.

(** X17. A [data: ] frame at the head of the buffer whose delta is a
    non-empty string, with a callback that returns: the callback is
    invoked once, with exactly that string, the string is appended to the
    accumulated text, and the pass goes on with the rest of the buffer. *)
Theorem delta_frame_is_delivered_and_appended
    {P : Platform} (onChunk : Callback) (line payload rest ft : jsstring)
    (tr : trace) (parsed : value) (s : jsstring) :
  ~ In NL line ->
  trim line = data_prefix ++ payload ->
  payload <> DONE ->
  JSON_parse payload = Some parsed ->
  delta_content parsed = Ok (VString s) ->
  s <> [] ->
  onChunk (deltas tr) (VString s) = None ->
  processLines onChunk {| buffer := line ++ NL :: rest; fullText := ft |} tr
  = processLines onChunk {| buffer := rest; fullText := ft ++ s |}
      (tr ++ [OnChunk (VString s)]).
Proof.
  intros Hline Hframe Hnot Hparse Hdelta Hs Hcb.
  rewrite (processLines_data_line onChunk line payload rest ft tr Hline Hframe Hnot).
  unfold bind.
  rewrite (process_data_delta onChunk (trim line) payload s parsed
             {| buffer := rest; fullText := ft |} tr Hparse Hdelta Hs Hcb).
  reflexivity.
Qed.

(** X18. No content of the stream makes the call throw: with a key, a
    2xx response and a readable body whose reads all succeed, and a
    callback that always returns, [sendStreamingChatRequest] returns. *)
Theorem streaming_returns_when_no_read_fails
    {P : Platform} (env : Env) (net : Network) (onChunk : Callback)
    (messages : list Message) (model : option jsstring)
    (temperature : option Q) (tr : trace)
    (response : Response) (chunks : list jsstring) :
  (forall history v, onChunk history v = None) ->
  API_KEY env <> [] ->
  net (streaming_request env messages model temperature) = Ok response ->
  ok response = true ->
  body response = Some (map Chunk chunks) ->
  exists tr' text,
    sendStreamingChatRequest env net onChunk messages model temperature tr
    = (tr', Ok text).
Proof.
  intros _ Hkey Hnet Hok Hbody.
  rewrite (streaming_with_reader env net onChunk messages model temperature tr
             response _ Hkey Hnet Hok Hbody).
  unfold drain, bind.
  destruct (read_loop_chunks_return onChunk chunks
              {| buffer := []; fullText := [] |}
              (tr ++ [Fetch (streaming_request env messages model temperature)]))
    as (tr1 & st1 & E).
  rewrite E.
  destruct (flush_invariant onChunk (fun _ _ => True)
              (fun _ _ _ _ _ _ _ _ => I) st1 tr1 I) as (tr2 & st2 & E2 & _).
  rewrite E2. eexists _, _; reflexivity.
Qed.

(* ================================================================== *)
(** * Further properties of the dispatcher *)
(* ================================================================== *)

Ltac innermost_case :=
  cbv beta iota;
  match goal with
  | |- context [match ?x with _ => _ end] =>
    lazymatch x with
    | (_, _) => fail
    | context [match _ with _ => _ end] => fail
    | _ => destruct x
    end
  end.

(** X9. With a key, whatever the network answers, [sendChatRequest]
    adds to the trace exactly its one request and, when it throws, the
    log of the very error it throws; it never retries. *)
Theorem chat_call_footprint
    {P : Platform} (env : Env) (net : Network)
    (messages : list Message) (model : option jsstring)
    (temperature : option Q) (tr : trace) :
  API_KEY env <> [] ->
  exists r,
    sendChatRequest env net messages model temperature tr =
    (match r with
     | Ok _ => tr ++ [Fetch (chat_request env messages model temperature)]
     | Throw e => tr ++ [Fetch (chat_request env messages model temperature)]
                     ++ [ConsoleError chat_log_label e]
     end, r).
Proof.
  intros Hkey. unfold sendChatRequest.
  rewrite (isEmpty_false _ Hkey).
  unfold response_json, api_error_message; run_monad.
  repeat (cbv beta iota;
          match goal with
          | |- context [match ?x with _ => _ end] =>
            lazymatch x with
            | (_, _) => fail
            | context [match _ with _ => _ end] => fail
            | _ => destruct x
            end
          end);
    match goal with
    | |- exists r, (_, ?x) = _ => exists x
    end;
    cbv beta iota; rewrite <- ?app_assoc; reflexivity.
Qed.

(** X10. A rejection of [fetch] reaches the caller unchanged, from
    [sendChatRequest] and from [sendStreamingChatRequest]; the streaming
    callback is not invoked. *)
Theorem fetch_failure_reaches_the_caller
    {P : Platform} (env : Env) (net : Network) (onChunk : Callback)
    (messages : list Message) (model : option jsstring)
    (temperature : option Q) (tr : trace) (e : exn) :
  API_KEY env <> [] ->
  net (chat_request env messages model temperature) = Throw e ->
  net (streaming_request env messages model temperature) = Throw e ->
  sendChatRequest env net messages model temperature tr
  = (tr ++ [Fetch (chat_request env messages model temperature)]
        ++ [ConsoleError chat_log_label e],
     Throw e)
  /\ sendStreamingChatRequest env net onChunk messages model temperature tr
     = (tr ++ [Fetch (streaming_request env messages model temperature)]
           ++ [ConsoleError streaming_log_label e],
        Throw e).
Proof.
  intros Hkey Hchat Hstream. split.
  - unfold sendChatRequest. rewrite (isEmpty_false _ Hkey). run_monad.
    rewrite Hchat. rewrite <- app_assoc. reflexivity.
  - apply streaming_fetch_rejected; assumption.
Qed.

(** X11. A 2xx response whose first choice has a non-empty string as
    [message.content]: [sendChatRequest] returns that string, whatever the
    other choices hold, and logs nothing. *)
Theorem chat_returns_the_first_choice
    {P : Platform} (env : Env) (net : Network)
    (messages : list Message) (model : option jsstring)
    (temperature : option Q) (tr : trace)
    (response : Response) (reads : list ReadResult) (text : jsstring)
    (fields first message : list (jsstring * value)) (others : list value)
    (s : jsstring) :
  API_KEY env <> [] ->
  net (chat_request env messages model temperature) = Ok response ->
  ok response = true ->
  body response = Some reads ->
  body_text reads = Ok text ->
  JSON_parse text = Some (VObject fields) ->
  lookup (lit "choices") fields = Some (VArray (VObject first :: others)) ->
  lookup (lit "message") first = Some (VObject message) ->
  lookup (lit "content") message = Some (VString s) ->
  s <> [] ->
  sendChatRequest env net messages model temperature tr
  = (tr ++ [Fetch (chat_request env messages model temperature)], Ok (VString s)).
Proof.
  intros Hkey Hnet Hok Hbody Htext Hparse Hchoices Hmessage Hcontent Hs.
  rewrite (chat_success_path env net messages model temperature tr response reads
             text _ Hkey Hnet Hok Hbody Htext Hparse).
  unfold message_content, get. rewrite Hchoices. simpl.
  rewrite Hmessage, Hcontent. unfold or_value. simpl.
  rewrite (isEmpty_false _ Hs). reflexivity.
Qed.

(** X12. A 2xx response whose [choices] is the empty array:
    [sendChatRequest] returns the empty string, and logs nothing. *)
Theorem chat_without_a_choice_returns_the_empty_string
    {P : Platform} (env : Env) (net : Network)
    (messages : list Message) (model : option jsstring)
    (temperature : option Q) (tr : trace)
    (response : Response) (reads : list ReadResult) (text : jsstring)
    (fields : list (jsstring * value)) :
  API_KEY env <> [] ->
  net (chat_request env messages model temperature) = Ok response ->
  ok response = true ->
  body response = Some reads ->
  body_text reads = Ok text ->
  JSON_parse text = Some (VObject fields) ->
  lookup (lit "choices") fields = Some (VArray []) ->
  sendChatRequest env net messages model temperature tr
  = (tr ++ [Fetch (chat_request env messages model temperature)], Ok (VString [])).
Proof.
  intros Hkey Hnet Hok Hbody Htext Hparse Hchoices.
  rewrite (chat_success_path env net messages model temperature tr response reads
             text _ Hkey Hnet Hok Hbody Htext Hparse).
  unfold message_content, get. rewrite Hchoices. reflexivity.
Qed.

(** X13. A 2xx response that lacks [choices], or whose first choice is an
    object without [message]: [sendChatRequest] throws a [TypeError], it
    does not return the empty string. *)
Theorem chat_without_choices_or_message_is_a_type_error
    {P : Platform} (env : Env) (net : Network)
    (messages : list Message) (model : option jsstring)
    (temperature : option Q) (tr : trace)
    (response : Response) (reads : list ReadResult) (text : jsstring)
    (fields : list (jsstring * value)) :
  API_KEY env <> [] ->
  net (chat_request env messages model temperature) = Ok response ->
  ok response = true ->
  body response = Some reads ->
  body_text reads = Ok text ->
  JSON_parse text = Some (VObject fields) ->
  (lookup (lit "choices") fields = None
   \/ exists first others,
        lookup (lit "choices") fields = Some (VArray (VObject first :: others))
        /\ lookup (lit "message") first = None) ->
  sendChatRequest env net messages model temperature tr
  = (tr ++ [Fetch (chat_request env messages model temperature)]
        ++ [ConsoleError chat_log_label TypeError],
     Throw TypeError).
Proof.
  intros Hkey Hnet Hok Hbody Htext Hparse Hshape.
  rewrite (chat_success_path env net messages model temperature tr response reads
             text _ Hkey Hnet Hok Hbody Htext Hparse).
  unfold message_content, get.
  destruct Hshape as [Hnone | (first & others & Hchoices & Hmessage)].
  - rewrite Hnone. reflexivity.
  - rewrite Hchoices. simpl. rewrite Hmessage. reflexivity.
Qed.

(** X14. A response outside 2xx whose JSON body has no [error] member,
    or an [error] object without [message]: [sendChatRequest] throws the
    error made of the failure prefix and the status text. *)
Theorem chat_error_falls_back_to_the_status_text
    {P : Platform} (env : Env) (net : Network)
    (messages : list Message) (model : option jsstring)
    (temperature : option Q) (tr : trace)
    (response : Response) (reads : list ReadResult) (text : jsstring)
    (fields : list (jsstring * value)) :
  API_KEY env <> [] ->
  net (chat_request env messages model temperature) = Ok response ->
  ok response = false ->
  body response = Some reads ->
  body_text reads = Ok text ->
  JSON_parse text = Some (VObject fields) ->
  (lookup (lit "error") fields = None
   \/ exists error,
        lookup (lit "error") fields = Some (VObject error)
        /\ lookup (lit "message") error = None) ->
  sendChatRequest env net messages model temperature tr
  = (tr ++ [Fetch (chat_request env messages model temperature)]
        ++ [ConsoleError chat_log_label
              (Error (msg_failed ++ statusText response))],
     Throw (Error (msg_failed ++ statusText response))).
Proof.
  intros Hkey Hnet Hok Hbody Htext Hparse Hshape.
  unfold sendChatRequest.
  rewrite (isEmpty_false _ Hkey).
  unfold response_json, api_error_message; run_monad.
  rewrite Hnet, Hok, Hbody, Htext. cbn [negb]. cbv beta iota.
  rewrite Hparse. unfold get.
  destruct Hshape as [Hnone | (error & Herror & Hmessage)].
  - rewrite Hnone. simpl. rewrite <- app_assoc. reflexivity.
  - rewrite Herror. simpl. rewrite Hmessage. simpl.
    rewrite <- app_assoc. reflexivity.
Qed.

(** X15. For a response outside 2xx, [sendChatRequest] never returns a
    value: whatever the body holds, it throws. *)
Theorem chat_response_outside_2xx_never_returns
    {P : Platform} (env : Env) (net : Network)
    (messages : list Message) (model : option jsstring)
    (temperature : option Q) (tr : trace) (response : Response) :
  API_KEY env <> [] ->
  net (chat_request env messages model temperature) = Ok response ->
  ok response = false ->
  exists e,
    snd (sendChatRequest env net messages model temperature tr) = Throw e.
Proof.
  intros Hkey Hnet Hok.
  unfold sendChatRequest.
  rewrite (isEmpty_false _ Hkey).
  unfold response_json, api_error_message; run_monad.
  rewrite Hnet, Hok. cbn [negb].
  repeat innermost_case; cbv beta iota; eexists; reflexivity.
Qed.

(** X16. The site name holds characters outside ISO-8859-1, and no
    header value does: with a key and a site URL within ISO-8859-1, every
    header value of both requests is within ISO-8859-1. *)
Theorem header_values_are_latin1
    (env : Env) (messages : list Message) (model : option jsstring)
    (temperature : option Q) :
  latin1 (API_KEY env) = true ->
  latin1 (SITE_URL env) = true ->
  latin1 SITE_NAME = false
  /\ Forall (fun header => latin1 (snd header) = true)
       (req_headers (chat_request env messages model temperature))
  /\ Forall (fun header => latin1 (snd header) = true)
       (req_headers (streaming_request env messages model temperature)).
Proof.
  intros Hkey Hsite.
  assert (Hbearer : latin1 (lit "Bearer " ++ API_KEY env) = true).
  { unfold latin1 in *. rewrite forallb_app, Hkey. reflexivity. }
  split; [reflexivity |].
  split; simpl; repeat constructor; simpl; auto.
Qed.

(** X19. Whatever the response, [generateSuggestions] returns, and no
    suggestion it returns holds a newline. *)
Theorem suggestions_hold_no_newline
    {P : Platform} (env : Env) (net : Network) (nodeContent : jsstring)
    (tr : trace) :
  exists tr' suggestions,
    generateSuggestions env net nodeContent tr = (tr', Ok suggestions)
    /\ Forall (fun s => ~ In NL s) suggestions.
Proof.
  assert (Hplaceholder : Forall (fun s => ~ In NL s) [placeholder]).
  { constructor; [apply indexOf_None; vm_compute; reflexivity | constructor]. }
  unfold generateSuggestions, split_lines; run_monad.
  destruct (sendChatRequest env net (suggestion_messages nodeContent) None None tr)
    as [tr1 [response|e]].
  - destruct response;
      try (eexists _, _; split; [reflexivity | exact Hplaceholder]).
    eexists _, _; split; [reflexivity |].
    apply Forall_forall; intros x Hx Hnl.
    apply In_firstn, filter_In in Hx as [Hin _].
    apply in_map_iff in Hin as (l & <- & Hl).
    apply trim_incl in Hnl.
    pose proof (split_pieces NL s) as Hpieces.
    rewrite Forall_forall in Hpieces. exact (Hpieces l Hl Hnl).
  - eexists _, _; split; [reflexivity | exact Hplaceholder].
Qed.

(* ================================================================== *)
(** * The further properties on concrete responses *)
(* ================================================================== *)

Section MoreScenarios.
#[local] Existing Instance Reference.platform.

Ltac by_evaluation :=
  first [ discriminate
        | reflexivity
        | (vm_compute; reflexivity)
        | (apply indexOf_None; reflexivity)
        | (intros; reflexivity)
        | (left; reflexivity) ].

(** Two frames cut in the middle of a member name and of the prefix. *)
Lemma chunk_boundaries_witness :
  let chunks :=
    [quoted "data: {'choices':[{'del";
     quoted "ta':{'content':'Hel'}}]}
da";
     quoted "ta: {'choices':[{'delta':{'content':'lo'}}]}
"] in
  has_sentinel (concat chunks) = false
  /\ sendStreamingChatRequest Fixtures.with_key
       (Fixtures.serve (Fixtures.streamed chunks)) Fixtures.quiet [] None None []
     = sendStreamingChatRequest Fixtures.with_key
         (Fixtures.serve (Fixtures.streamed [concat chunks])) Fixtures.quiet
         [] None None [].
Proof.
  cbv zeta. split; [reflexivity |].
  exact (@chunk_boundaries_do_not_matter Reference.platform Fixtures.with_key
           Fixtures.quiet [] None None [] 200 (lit "OK")
           [quoted "data: {'choices':[{'del";
            quoted "ta':{'content':'Hel'}}]}
da";
            quoted "ta: {'choices':[{'delta':{'content':'lo'}}]}
"] eq_refl).
Defined.

(** The frames cut in the middle still give [Hel], [lo] and [Hello]. *)
Example frames_cut_across_chunks :
  let chunks :=
    [quoted "data: {'choices':[{'del";
     quoted "ta':{'content':'Hel'}}]}
da";
     quoted "ta: {'choices':[{'delta':{'content':'lo'}}]}
"] in
  let run :=
    sendStreamingChatRequest Fixtures.with_key
      (Fixtures.serve (Fixtures.streamed chunks)) Fixtures.quiet [] None None [] in
  deltas (fst run) = [VString (lit "Hel"); VString (lit "lo")]
  /\ snd run = Ok (lit "Hello").
Proof. vm_compute. split; reflexivity. Qed.

(** With sentinel lines in the text the cut matters: after a second
    sentinel, a frame that comes in a chunk of its own is delivered, and
    in a single chunk it is left in the buffer. *)
Example sentinels_make_the_cut_matter :
  let run chunks :=
    snd (sendStreamingChatRequest Fixtures.with_key
           (Fixtures.serve (Fixtures.streamed chunks)) Fixtures.quiet
           [] None None []) in
  let chunks :=
    [Fixtures.frame_sentinel ++ [NL]; Fixtures.frame_late ++ [NL];
     Fixtures.frame_sentinel ++ [NL]; Fixtures.frame_lo ++ [NL]] in
  has_sentinel (concat chunks) = true
  /\ run chunks = Ok (lit "latelo")
  /\ run [concat chunks] = Ok (lit "late").
Proof. vm_compute. repeat split. Qed.


(** A [data:] field without the space after the colon, then a frame. *)
Lemma ignored_line_witness :
  let line := quoted "data:{'choices':[{'delta':{'content':'Hel'}}]}" in
  let rest := Fixtures.frame_lo ++ [NL] in
  startsWith data_prefix (trim line) = false
  /\ processLines Fixtures.quiet
       {| buffer := line ++ NL :: rest; fullText := [] |} []
     = processLines Fixtures.quiet {| buffer := rest; fullText := [] |} [].
Proof.
  cbv zeta. split; [reflexivity |].
  eapply (@lines_without_the_data_prefix_are_ignored Reference.platform);
    by_evaluation.
Defined.

(** A frame ended by CR LF. *)
Lemma carriage_return_witness :
  (~ In NL Fixtures.frame_Hel)
  /\ processLines Fixtures.quiet
       {| buffer := Fixtures.frame_Hel ++ [13%N] ++ NL :: []; fullText := [] |} []
     = processLines Fixtures.quiet
         {| buffer := Fixtures.frame_Hel ++ NL :: []; fullText := [] |} [].
Proof.
  assert (Hline : ~ In NL Fixtures.frame_Hel) by (apply indexOf_None; reflexivity).
  split; [exact Hline |].
  exact (@carriage_return_before_the_newline_is_ignored Reference.platform
           Fixtures.quiet Fixtures.frame_Hel [] [] [] Hline).
Defined.

(** A stream with a frame whose content is the empty string. *)
Lemma truthy_deltas_witness :
  let net :=
    Fixtures.serve
      (Fixtures.streamed
         [quoted "data: {'choices':[{'delta':{'content':''}}]}
" ++ Fixtures.frame_Hel ++ [NL]]) in
  API_KEY Fixtures.with_key <> []
  /\ exists added r,
       sendStreamingChatRequest Fixtures.with_key net Fixtures.quiet [] None None []
       = ([] ++ [Fetch (streaming_request Fixtures.with_key [] None None)] ++ added, r)
       /\ fetches added = []
       /\ Forall (fun v => ToBoolean v = true) (deltas added)
       /\ cancels added <= 1.
Proof.
  cbv zeta. split; [discriminate |].
  eapply (@callback_receives_truthy_deltas_only Reference.platform). discriminate.
Defined.

(** A read fails after one frame and the beginning of another. *)
Lemma failed_read_witness :
  let reset := PlatformError (lit "connection reset") in
  let chunks := [Fixtures.frame_Hel ++ [NL]; quoted "data: {'choices':[{'de"] in
  let response :=
    {| status := 200; statusText := lit "OK";
       body := Some (map Chunk chunks ++ ReadError reset
                       :: [Chunk (Fixtures.frame_lo ++ [NL])]) |} in
  ok response = true
  /\ exists tr1 st1,
       read_loop Fixtures.quiet (map Chunk chunks) {| buffer := []; fullText := [] |}
         ([] ++ [Fetch (streaming_request Fixtures.with_key [] None None)])
       = (tr1, Ok st1)
       /\ sendStreamingChatRequest Fixtures.with_key (Fixtures.serve response)
            Fixtures.quiet [] None None []
          = (tr1 ++ [Cancel] ++ [ConsoleError streaming_log_label reset], Throw reset).
Proof.
  cbv zeta. split; [reflexivity |].
  eapply (@failed_read_reaches_the_caller Reference.platform Fixtures.with_key
           _ Fixtures.quiet [] None None []
           {| status := 200; statusText := lit "OK";
              body := Some (map Chunk [Fixtures.frame_Hel ++ [NL];
                                       quoted "data: {'choices':[{'de"]
                              ++ ReadError (PlatformError (lit "connection reset"))
                              :: [Chunk (Fixtures.frame_lo ++ [NL])]) |}
           [Fixtures.frame_Hel ++ [NL]; quoted "data: {'choices':[{'de"]
           (PlatformError (lit "connection reset"))
           [Chunk (Fixtures.frame_lo ++ [NL])]);
    by_evaluation.
Defined.

(** A 204 response, which has no body. *)
Lemma unreadable_body_witness :
  let response := {| status := 204; statusText := lit "No Content"; body := None |} in
  ok response = true
  /\ sendStreamingChatRequest Fixtures.with_key (Fixtures.serve response)
       Fixtures.quiet [] None None []
     = ([] ++ [Fetch (streaming_request Fixtures.with_key [] None None)]
           ++ [ConsoleError streaming_log_label (Error msg_unreadable)],
        Throw (Error msg_unreadable)).
Proof.
  cbv zeta. split; [reflexivity |].
  eapply (@unreadable_body_is_an_error Reference.platform Fixtures.with_key
           _ Fixtures.quiet [] None None []
           {| status := 204; statusText := lit "No Content"; body := None |});
    by_evaluation.
Defined.

(** A 502 response whose body is a page of HTML. *)
Lemma streaming_status_line_witness :
  let response :=
    Fixtures.answered 502 (lit "Bad Gateway") (lit "<html>Bad Gateway</html>") in
  ok response = false
  /\ JSON_parse (lit "<html>Bad Gateway</html>") = None
  /\ snd (sendStreamingChatRequest Fixtures.with_key (Fixtures.serve response)
            Fixtures.quiet [] None None [])
     = Throw (Error (lit "API 请求失败: 502 Bad Gateway")).
Proof.
  cbv zeta. split; [reflexivity |]. split; [reflexivity |].
  erewrite (@streaming_error_falls_back_to_the_status_line Reference.platform
              Fixtures.with_key _ Fixtures.quiet [] None None []
              (Fixtures.answered 502 (lit "Bad Gateway")
                 (lit "<html>Bad Gateway</html>")));
    by_evaluation.
Defined.

(** A frame, then the rest of the buffer. *)
Lemma delta_frame_witness :
  processLines Fixtures.quiet
    {| buffer := Fixtures.frame_Hel ++ NL :: Fixtures.frame_lo; fullText := [] |} []
  = processLines Fixtures.quiet
      {| buffer := Fixtures.frame_lo; fullText := [] ++ lit "Hel" |}
      ([] ++ [OnChunk (VString (lit "Hel"))]).
Proof.
  eapply (@delta_frame_is_delivered_and_appended Reference.platform
            Fixtures.quiet Fixtures.frame_Hel
            (quoted "{'choices':[{'delta':{'content':'Hel'}}]}")
            Fixtures.frame_lo [] []);
    by_evaluation.
Defined.

(** A stream of a broken frame, a content that has no string form, and
    text that is no frame at all. *)
Lemma streaming_returns_witness :
  let chunks :=
    [Fixtures.frame_broken ++ [NL];
     quoted "data: {'choices':[{'delta':{'content':{'toString':1}}}]}
";
     lit "<html>"] in
  exists tr' text,
    sendStreamingChatRequest Fixtures.with_key
      (Fixtures.serve (Fixtures.streamed chunks)) Fixtures.quiet [] None None []
    = (tr', Ok text).
Proof.
  cbv zeta.
  eapply (@streaming_returns_when_no_read_fails Reference.platform
            Fixtures.with_key _ Fixtures.quiet [] None None []
            (Fixtures.streamed
               [Fixtures.frame_broken ++ [NL];
                quoted "data: {'choices':[{'delta':{'content':{'toString':1}}}]}
";
                lit "<html>"]));
    by_evaluation.
Defined.

(** A key, and a network that rejects every request. *)
Lemma chat_footprint_witness :
  API_KEY Fixtures.with_key <> []
  /\ exists r,
       sendChatRequest Fixtures.with_key Fixtures.unreachable [] None None [] =
       (match r with
        | Ok _ => [] ++ [Fetch (chat_request Fixtures.with_key [] None None)]
        | Throw e => [] ++ [Fetch (chat_request Fixtures.with_key [] None None)]
                        ++ [ConsoleError chat_log_label e]
        end, r).
Proof.
  split; [discriminate |].
  eapply (@chat_call_footprint Reference.platform). discriminate.
Defined.

(** A key, and a network that rejects both requests alike. *)
Lemma fetch_failure_witness :
  let failure := PlatformError (lit "network reached") in
  snd (sendChatRequest Fixtures.with_key Fixtures.unreachable [] None None [])
    = Throw failure
  /\ snd (sendStreamingChatRequest Fixtures.with_key Fixtures.unreachable
            Fixtures.quiet [] None None [])
     = Throw failure.
Proof.
  cbv zeta.
  destruct (@fetch_failure_reaches_the_caller Reference.platform
              Fixtures.with_key Fixtures.unreachable Fixtures.quiet
              [] None None [] (PlatformError (lit "network reached")))
    as [Hchat Hstream]; try by_evaluation.
  rewrite Hchat, Hstream. split; reflexivity.
Defined.

(** Two choices: the first one is returned. *)
Lemma first_choice_witness :
  let text :=
    quoted "{'choices':[{'message':{'role':'assistant','content':'first'}},{'message':{'content':'second'}}]}" in
  sendChatRequest Fixtures.with_key
    (Fixtures.serve (Fixtures.answered 200 (lit "OK") text)) [] None None []
  = ([] ++ [Fetch (chat_request Fixtures.with_key [] None None)],
     Ok (VString (lit "first"))).
Proof.
  cbv zeta.
  eapply (@chat_returns_the_first_choice Reference.platform Fixtures.with_key
           _ [] None None []
           (Fixtures.answered 200 (lit "OK")
              (quoted "{'choices':[{'message':{'role':'assistant','content':'first'}},{'message':{'content':'second'}}]}"))
           _ _
           [(lit "choices",
             VArray [VObject [(lit "message",
                               VObject [(lit "role", VString (lit "assistant"));
                                        (lit "content", VString (lit "first"))])];
                     VObject [(lit "message",
                               VObject [(lit "content",
                                         VString (lit "second"))])]])]
           [(lit "message",
             VObject [(lit "role", VString (lit "assistant"));
                      (lit "content", VString (lit "first"))])]
           [(lit "role", VString (lit "assistant"));
            (lit "content", VString (lit "first"))]
           [VObject [(lit "message",
                      VObject [(lit "content", VString (lit "second"))])]]);
    by_evaluation.
Defined.

(** The scenario of the specification: no choice. *)
Lemma no_choice_witness :
  sendChatRequest Fixtures.with_key
    (Fixtures.serve (Fixtures.answered 200 (lit "OK") (quoted "{'choices':[]}")))
    [] None None []
  = ([] ++ [Fetch (chat_request Fixtures.with_key [] None None)], Ok (VString [])).
Proof.
  eapply (@chat_without_a_choice_returns_the_empty_string Reference.platform
           Fixtures.with_key _ [] None None []
           (Fixtures.answered 200 (lit "OK") (quoted "{'choices':[]}"))
           _ _ [(lit "choices", VArray [])]);
    by_evaluation.
Defined.

(** A 2xx response that is an object without [choices]. *)
Lemma no_choices_member_witness :
  snd (sendChatRequest Fixtures.with_key
         (Fixtures.serve (Fixtures.answered 200 (lit "OK") (quoted "{'id':'gen-1'}")))
         [] None None [])
  = Throw TypeError.
Proof.
  erewrite (@chat_without_choices_or_message_is_a_type_error Reference.platform
             Fixtures.with_key _ [] None None []
             (Fixtures.answered 200 (lit "OK") (quoted "{'id':'gen-1'}"))
             _ _ [(lit "id", VString (lit "gen-1"))]);
    by_evaluation.
Defined.

(** A 500 response whose body is an empty object. *)
Lemma status_text_fallback_witness :
  snd (sendChatRequest Fixtures.with_key
         (Fixtures.serve
            (Fixtures.answered 500 (lit "Internal Server Error") (quoted "{}")))
         [] None None [])
  = Throw (Error (lit "API 请求失败: Internal Server Error")).
Proof.
  erewrite (@chat_error_falls_back_to_the_status_text Reference.platform
             Fixtures.with_key _ [] None None []
             (Fixtures.answered 500 (lit "Internal Server Error") (quoted "{}"))
             _ _ []);
    by_evaluation.
Defined.

(** A 502 response whose body is not JSON. *)
Lemma outside_2xx_witness :
  let response :=
    Fixtures.answered 502 (lit "Bad Gateway") (lit "<html>Bad Gateway</html>") in
  ok response = false
  /\ exists e,
       snd (sendChatRequest Fixtures.with_key (Fixtures.serve response)
              [] None None []) = Throw e.
Proof.
  cbv zeta. split; [reflexivity |].
  eapply (@chat_response_outside_2xx_never_returns Reference.platform
           Fixtures.with_key _ [] None None []
           (Fixtures.answered 502 (lit "Bad Gateway")
              (lit "<html>Bad Gateway</html>")));
    by_evaluation.
Defined.

(** An ASCII key and the default site URL. *)
Lemma header_values_witness :
  latin1 (API_KEY Fixtures.with_key) = true
  /\ latin1 (SITE_URL Fixtures.with_key) = true
  /\ Forall (fun header => latin1 (snd header) = true)
       (req_headers (chat_request Fixtures.with_key [] None None)).
Proof.
  split; [reflexivity |]. split; [reflexivity |].
  exact (proj1 (proj2 (header_values_are_latin1 Fixtures.with_key [] None None
                          eq_refl eq_refl))).
Defined.

End MoreScenarios.
